(** * Idempotent request execution and error normalization of the Fal AI
      MCP server: a shallow embedding and its properties.

    Sources embedded here (paths relative to the server package):
    - [src/types/acp.ts]            : [createACPError]
    - [src/utils/error-handler.ts]  : [formatACPError] and its helpers,
                                      [createToolErrorResponse]
    - [src/services/cache.ts]       : [IdempotencyCache]
    - [src/services/fal-client.ts]  : [callWithRetry], [isClientError],
                                      [fetchSchema], [generate]
    - [src/tools/generator.ts]      : the [tools/call] request handler
    - [src/types/fal.ts]            : [sanitizeSlugToToolName]

    Modelling conventions.
    - JavaScript values are the inductive [JsValue]; numbers are the
      integers ([Z]), strings are byte strings (the UTF-8 encoding of the
      text), functions and symbols are not represented.
    - [Date.now()] is a clock carried by the state; [async]/[await] is
      sequential composition; a thrown value is the [Throw] completion.
    - Node's [crypto.createHash('sha256')] is the FIPS 180-4 function,
      written out on 32-bit words held in [Z]. *)

From Stdlib Require Import ZArith Ascii String List Sorted Permutation.
From stdpp Require Import base option list strings gmap sorting pretty.

Set Warnings "-register-all".

Local Open Scope string_scope.
Local Open Scope Z_scope.

(* ===================================================================== *)
(** ** SHA-256 (Node's [crypto.createHash('sha256')...digest('hex')])      *)
(* ===================================================================== *)

Module Sha256.

Definition mask32 : Z := 0xFFFFFFFF.
Definition w32 (x : Z) : Z := Z.land x mask32.
Definition add32 (x y : Z) : Z := w32 (x + y).
Definition rotr (n x : Z) : Z :=
  Z.lor (Z.shiftr x n) (w32 (Z.shiftl x (32 - n))).
Definition shr (n x : Z) : Z := Z.shiftr x n.
Definition not32 (x : Z) : Z := Z.lxor x mask32.

Definition Ch (x y z : Z) : Z := Z.lxor (Z.land x y) (Z.land (not32 x) z).
Definition Maj (x y z : Z) : Z :=
  Z.lxor (Z.lxor (Z.land x y) (Z.land x z)) (Z.land y z).
Definition bsig0 (x : Z) : Z := Z.lxor (Z.lxor (rotr 2 x) (rotr 13 x)) (rotr 22 x).
Definition bsig1 (x : Z) : Z := Z.lxor (Z.lxor (rotr 6 x) (rotr 11 x)) (rotr 25 x).
Definition ssig0 (x : Z) : Z := Z.lxor (Z.lxor (rotr 7 x) (rotr 18 x)) (shr 3 x).
Definition ssig1 (x : Z) : Z := Z.lxor (Z.lxor (rotr 17 x) (rotr 19 x)) (shr 10 x).

(** The constants are defined as the standard defines them: the first 32
    bits of the fractional parts of the cube roots ([K]) and of the
    square roots ([H0]) of the first primes. *)
Definition is_prime (n : nat) : bool :=
  (2 <=? n)%nat
  && forallb (fun d => negb (Nat.eqb (n mod d) 0)) (seq 2 (n - 2)).

Definition primes_below (bound : nat) : list Z :=
  map Z.of_nat (List.filter is_prime (seq 0 bound)).

(** The integer cube root of a number below [2 ^ 108], one bit at a time. *)
Definition icbrt (n : Z) : Z :=
  fold_left
    (fun r i => let c := r + 2 ^ Z.of_nat i in if c * c * c <=? n then c else r)
    (rev (seq 0 36)) 0.

Definition K : list Z :=
  Eval vm_compute in
    map (fun p => w32 (icbrt (p * 2 ^ 96))) (firstn 64 (primes_below 312)).

Definition H0 : list Z :=
  Eval vm_compute in
    map (fun p => w32 (Z.sqrt (p * 2 ^ 64))) (firstn 8 (primes_below 20)).

Definition bytes_of_string (s : string) : list Z :=
  map (fun c => Z.of_N (N_of_ascii c)) (list_ascii_of_string s).

(** Padding: a 1 bit, zeros up to 56 mod 64, the bit length on 8 bytes. *)
Definition be_bytes (count : nat) (x : Z) : list Z :=
  map (fun i => Z.land (Z.shiftr x (8 * Z.of_nat i)) 0xFF) (rev (seq 0 count)).

Definition pad (msg : list Z) : list Z :=
  let len := Z.of_nat (length msg) in
  let zeros := Z.to_nat ((55 - len) mod 64) in
  msg ++ [0x80] ++ repeat 0 zeros ++ be_bytes 8 (8 * len).

Fixpoint words_of_bytes (fuel : nat) (bs : list Z) : list Z :=
  match fuel, bs with
  | S fuel', b0 :: b1 :: b2 :: b3 :: rest =>
      (Z.shiftl b0 24 + Z.shiftl b1 16 + Z.shiftl b2 8 + b3)
        :: words_of_bytes fuel' rest
  | _, _ => []
  end.

Fixpoint blocks_of_words (fuel : nat) (ws : list Z) : list (list Z) :=
  match fuel, ws with
  | S fuel', _ :: _ => firstn 16 ws :: blocks_of_words fuel' (skipn 16 ws)
  | _, _ => []
  end.

(** The message schedule, most recent word first while it is built. *)
Fixpoint extend (count : nat) (rev_w : list Z) : list Z :=
  match count with
  | O => rev_w
  | S count' =>
      let w := add32 (add32 (ssig1 (nth 1 rev_w 0)) (nth 6 rev_w 0))
                     (add32 (ssig0 (nth 14 rev_w 0)) (nth 15 rev_w 0)) in
      extend count' (w :: rev_w)
  end.

Definition schedule (block : list Z) : list Z := rev (extend 48 (rev block)).

Definition round (st : list Z) (kw : Z * Z) : list Z :=
  match st with
  | [a; b; c; d; e; f; g; h] =>
      let t1 := add32 (add32 (add32 h (bsig1 e)) (add32 (Ch e f g) (fst kw))) (snd kw) in
      let t2 := add32 (bsig0 a) (Maj a b c) in
      [add32 t1 t2; a; b; c; add32 d t1; e; f; g]
  | _ => st
  end.

Definition compress (h : list Z) (block : list Z) : list Z :=
  let st := fold_left round (combine K (schedule block)) h in
  map (fun p => add32 (fst p) (snd p)) (combine h st).

Definition hex_digit (d : Z) : ascii :=
  nth (Z.to_nat d)
    ["0"; "1"; "2"; "3"; "4"; "5"; "6"; "7"; "8"; "9";
     "a"; "b"; "c"; "d"; "e"; "f"]%char "0"%char.

Definition hex_of_word (w : Z) : string :=
  string_of_list_ascii
    (map (fun i => hex_digit (Z.land (Z.shiftr w (4 * Z.of_nat i)) 0xF))
         (rev (seq 0 8))).

Definition digest_words (msg : list Z) : list Z :=
  let padded := pad msg in
  let ws := words_of_bytes (length padded) padded in
  fold_left compress (blocks_of_words (length ws) ws) H0.

Definition sha256_hex (s : string) : string :=
  String.concat "" (map hex_of_word (digest_words (bytes_of_string s))).

End Sha256.


(* ===================================================================== *)
(** ** JavaScript values                                                   *)
(* ===================================================================== *)

(** Outcome of running code that may [throw]: the thrown value is any
    JavaScript value, as in the language. *)
Inductive Completion (A E : Type) : Type :=
| Normal (a : A)
| Throw (e : E).
Arguments Normal {A E} a.
Arguments Throw {A E} e.

Module Js.

(** [Plain] is an object literal; [ErrorInst name message] is an instance
    of [Error]: [name] is what its prototype gives ("Error", "TypeError",
    ...) and [message] its own non-enumerable [message]. *)
Inductive ObjKind : Type :=
| Plain
| ErrorInst (name message : string).

(** The property list of [JObj] holds the own enumerable properties in
    the order JavaScript enumerates them (array-index keys ascending,
    then the other keys in insertion order); [obj_set] keeps that order.
    [JNum n] is a number that is an integer; what is said of its text
    ([to_string], [serialize]) is for [n] below [10^21] in magnitude,
    where JavaScript prints every digit. *)
Inductive JsValue : Type :=
| JUndefined
| JNull
| JBool (b : bool)
| JNum (n : Z)
| JStr (s : string)
| JArr (items : list JsValue)
| JObj (kind : ObjKind) (props : list (string * JsValue)).

Abbreviation Props := (list (string * JsValue)).

(** *** Truthiness, [||], [typeof], [instanceof] *)

Definition truthy (v : JsValue) : bool :=
  match v with
  | JUndefined | JNull => false
  | JBool b => b
  | JNum n => negb (n =? 0)
  | JStr s => negb (String.eqb s "")
  | JArr _ | JObj _ _ => true
  end.

Definition js_or (a b : JsValue) : JsValue := if truthy a then a else b.

(** [typeof v === 'object' && v !== null] *)
Definition is_object (v : JsValue) : bool :=
  match v with JArr _ | JObj _ _ => true | _ => false end.

(** [v instanceof Error] *)
Definition instanceof_Error (v : JsValue) : bool :=
  match v with JObj (ErrorInst _ _) _ => true | _ => false end.

(** *** Properties *)

Fixpoint assoc (k : string) (ps : Props) : option JsValue :=
  match ps with
  | [] => None
  | (k', x) :: ps' => if String.eqb k k' then Some x else assoc k ps'
  end.

(** What an instance inherits or owns without enumerating it. The members
    of [Object.prototype] ([constructor], [toString], ...) are left out:
    the code never reads or tests them. *)
Definition hidden (kind : ObjKind) (k : string) : option JsValue :=
  match kind with
  | Plain => None
  | ErrorInst name message =>
      if String.eqb k "name" then Some (JStr name)
      else if String.eqb k "message" then Some (JStr message)
      else None
  end.

(** [v.k] and [v?.k]. Every plain [v.k] of the sources is applied to a
    value already known to be an object. *)
Definition js_get (v : JsValue) (k : string) : JsValue :=
  match v with
  | JObj kind ps =>
      match assoc k ps with
      | Some x => x
      | None => match hidden kind k with Some x => x | None => JUndefined end
      end
  | _ => JUndefined
  end.

(** ['k' in v], for the object values it is applied to. *)
Definition js_in (k : string) (v : JsValue) : bool :=
  match v with
  | JObj kind ps =>
      match assoc k ps with
      | Some _ => true
      | None => match hidden kind k with Some _ => true | None => false end
      end
  | _ => false
  end.

(** Array-index keys: canonical decimal strings below [2^32 - 1]. *)
Definition digit_of (c : ascii) : option N :=
  let n := N_of_ascii c in
  if ((48 <=? n) && (n <=? 57))%N then Some (n - 48)%N else None.

Fixpoint digits_value (acc : N) (s : string) : option N :=
  match s with
  | String.EmptyString => Some acc
  | String.String c s' =>
      match digit_of c with
      | Some d => digits_value (10 * acc + d)%N s'
      | None => None
      end
  end.

Definition array_index (k : string) : option N :=
  match k with
  | String.EmptyString => None
  | String.String c rest =>
      if Ascii.eqb c "0"%char && negb (String.eqb rest "") then None
      else match digits_value 0%N k with
           | Some n => if (n <? 4294967295)%N then Some n else None
           | None => None
           end
  end.

(** Where a new key goes among the existing ones. *)
Fixpoint insert_index (i : N) (k : string) (x : JsValue) (ps : Props) : Props :=
  match ps with
  | [] => [(k, x)]
  | (k', x') :: ps' =>
      match array_index k' with
      | Some j => if (j <? i)%N then (k', x') :: insert_index i k x ps'
                  else (k, x) :: ps
      | None => (k, x) :: ps
      end
  end.

Fixpoint replace_value (k : string) (x : JsValue) (ps : Props) : Props :=
  match ps with
  | [] => []
  | (k', x') :: ps' =>
      if String.eqb k k' then (k', x) :: ps' else (k', x') :: replace_value k x ps'
  end.

(** Defining or replacing the own property [k]: what [obj[k] = x] does
    for every key but [__proto__], and what a spread does for every key. *)
Definition obj_set (ps : Props) (k : string) (x : JsValue) : Props :=
  match assoc k ps with
  | Some _ => replace_value k x ps
  | None =>
      match array_index k with
      | Some i => insert_index i k x ps
      | None => ps ++ [(k, x)]
      end
  end.

(** [obj[k] = x] on an object made by a literal. An assignment to
    [__proto__] reaches the accessor of [Object.prototype], which sets the
    prototype (for an object or [null]) or does nothing: no own property
    is added. *)
Definition obj_assign (ps : Props) (k : string) (x : JsValue) : Props :=
  if String.eqb k "__proto__" then ps else obj_set ps k x.

(** [Object.keys(obj)] *)
Definition object_keys (ps : Props) : list string := map fst ps.

(** *** Conversions *)

Definition join (sep : string) (parts : list string) : string :=
  String.concat sep parts.

(** [String(v)], also what a template literal applies. *)
Fixpoint to_string (v : JsValue) : string :=
  match v with
  | JUndefined => "undefined"
  | JNull => "null"
  | JBool b => if b then "true" else "false"
  | JNum n => pretty n
  | JStr s => s
  | JArr items =>
      join ","
        ((fix each (l : list JsValue) : list string :=
            match l with
            | [] => []
            | x :: l' =>
                match x with
                | JUndefined | JNull => ""
                | _ => to_string x
                end :: each l'
            end) items)
  | JObj Plain _ => "[object Object]"
  | JObj (ErrorInst name message) ps =>
      (* Error.prototype.toString *)
      let field :=
        fix field (k dflt inherited : string) (l : Props) : string :=
          match l with
          | [] => inherited
          | (k', x) :: l' =>
              if String.eqb k k'
              then match x with JUndefined => dflt | _ => to_string x end
              else field k dflt inherited l'
          end in
      let n := field "name" "Error" name ps in
      let m := field "message" "" message ps in
      if String.eqb n "" then m
      else if String.eqb m "" then n
      else n +:+ ": " +:+ m
  end.

Definition is_space (c : ascii) : bool :=
  let n := N_of_ascii c in
  ((n =? 32) || ((9 <=? n) && (n <=? 13)))%N.

Fixpoint trim_left (s : string) : string :=
  match s with
  | String.String c s' => if is_space c then trim_left s' else s
  | String.EmptyString => s
  end.

Definition trim (s : string) : string :=
  String.rev (trim_left (String.rev (trim_left s))).

(** [Number(s)] for the strings that denote an integer in decimal. The
    other numeric forms (fractions, exponents, hexadecimal, [Infinity])
    have no counterpart among the integers and read as [NaN] ([None]). *)
Definition string_to_number (s : string) : option Z :=
  match trim s with
  | String.EmptyString => Some 0
  | String.String c rest as t =>
      if Ascii.eqb c "-"%char then
        match rest with
        | String.EmptyString => None
        | _ => option_map (fun n => - Z.of_N n) (digits_value 0%N rest)
        end
      else if Ascii.eqb c "+"%char then
        match rest with
        | String.EmptyString => None
        | _ => option_map Z.of_N (digits_value 0%N rest)
        end
      else option_map Z.of_N (digits_value 0%N t)
  end.

(** [Number(v)]; [None] is [NaN]. *)
Definition to_number (v : JsValue) : option Z :=
  match v with
  | JUndefined => None
  | JNull => Some 0
  | JBool b => Some (if b then 1 else 0)
  | JNum n => Some n
  | JStr s => string_to_number s
  | JArr _ | JObj _ _ => string_to_number (to_string v)
  end.

(** [v >= n] and [v < n] against a number literal. *)
Definition num_ge (v : JsValue) (n : Z) : bool :=
  match to_number v with Some x => n <=? x | None => false end.
Definition num_lt (v : JsValue) (n : Z) : bool :=
  match to_number v with Some x => x <? n | None => false end.

(** [v === n] and [v === s] against a literal. *)
Definition is_num (v : JsValue) (n : Z) : bool :=
  match v with JNum m => m =? n | _ => false end.
Definition is_str (v : JsValue) (s : string) : bool :=
  match v with JStr t => String.eqb t s | _ => false end.

Definition lower_ascii (c : ascii) : ascii :=
  let n := N_of_ascii c in
  if ((65 <=? n) && (n <=? 90))%N then ascii_of_N (n + 32) else c.

Fixpoint toLowerCase (s : string) : string :=
  match s with
  | String.EmptyString => String.EmptyString
  | String.String c s' => String.String (lower_ascii c) (toLowerCase s')
  end.

(** *** [JSON.stringify] *)

Definition hex4 (n : N) : string :=
  string_of_list_ascii
    (map (fun i => Sha256.hex_digit (Z.land (Z.shiftr (Z.of_N n) (4 * Z.of_nat i)) 0xF))
         (rev (seq 0 4))).

Definition dquote : string := String.String (ascii_of_N 34) String.EmptyString.
Definition newline : string := String.String (ascii_of_N 10) String.EmptyString.

Definition escape_char (c : ascii) : string :=
  let n := N_of_ascii c in
  if (n =? 34)%N then "\" +:+ dquote
  else if (n =? 92)%N then "\\"
  else if (n =? 8)%N then "\b"
  else if (n =? 12)%N then "\f"
  else if (n =? 10)%N then "\n"
  else if (n =? 13)%N then "\r"
  else if (n =? 9)%N then "\t"
  else if (n <? 32)%N then "\u" +:+ hex4 n
  else String.String c String.EmptyString.

Fixpoint escape (s : string) : string :=
  match s with
  | String.EmptyString => String.EmptyString
  | String.String c s' => escape_char c +:+ escape s'
  end.

Definition quote (s : string) : string := dquote +:+ escape s +:+ dquote.

(** Brackets around the members, with the line breaks [space] asks for. *)
Definition wrap (open close gap ind : string) (members : list string) : string :=
  match members with
  | [] => open +:+ close
  | _ =>
      if String.eqb gap "" then open +:+ join "," members +:+ close
      else
        let inner := ind +:+ gap in
        open +:+ newline +:+ inner
          +:+ join ("," +:+ newline +:+ inner) members
          +:+ newline +:+ ind +:+ close
  end.

Definition member (gap key value : string) : string :=
  quote key +:+ (if String.eqb gap "" then ":" else ": ") +:+ value.

(** [serialize gap ind v]: the text of [v] at indentation [ind];
    [None] where [JSON.stringify] gives [undefined]. *)
Fixpoint serialize (gap ind : string) (v : JsValue) : option string :=
  match v with
  | JUndefined => None
  | JNull => Some "null"
  | JBool b => Some (if b then "true" else "false")
  | JNum n => Some (pretty n)
  | JStr s => Some (quote s)
  | JArr items =>
      Some (wrap "[" "]" gap ind
        ((fix each (l : list JsValue) : list string :=
            match l with
            | [] => []
            | x :: l' =>
                match serialize gap (ind +:+ gap) x with
                | Some t => t
                | None => "null"
                end :: each l'
            end) items))
  | JObj _ ps =>
      Some (wrap "{" "}" gap ind
        ((fix each (l : Props) : list string :=
            match l with
            | [] => []
            | (k, x) :: l' =>
                match serialize gap (ind +:+ gap) x with
                | Some t => member gap k t :: each l'
                | None => each l'
                end
            end) ps))
  end.

(** [JSON.stringify(v)] and [JSON.stringify(v, null, 2)] *)
Definition JSON_stringify (v : JsValue) : option string := serialize "" "" v.
Definition JSON_stringify_2 (v : JsValue) : option string := serialize "  " "" v.

(** An object always has a text. *)
Definition members (gap ind : string) (ps : Props) : list string :=
  omap (fun kx => option_map (member gap (fst kx))
                    (serialize gap (ind +:+ gap) (snd kx))) ps.

Definition stringify_object (ps : Props) : string :=
  wrap "{" "}" "" "" (members "" "" ps).

End Js.


(* ===================================================================== *)
(** ** [src/types/acp.ts]                                                  *)
(* ===================================================================== *)

Module Acp.
Import Js.

(** A [string | undefined] argument used as a condition. *)
Definition given (s : option string) : bool :=
  match s with Some t => truthy (JStr t) | None => false end.

(** [createACPError(type, code, message, param?, requestId?)] *)
Definition createACPError (type code : string) (message param : JsValue)
    (requestId : option string) : JsValue :=
  let error := [("type", JStr type); ("code", JStr code); ("message", message)] in
  let error := if truthy param then obj_set error "param" param else error in
  let error :=
    match requestId with
    | Some r => if given requestId then obj_set error "request_id" (JStr r) else error
    | None => error
    end in
  JObj Plain error.

End Acp.

(* ===================================================================== *)
(** ** [src/utils/error-handler.ts]                                        *)
(* ===================================================================== *)

Module ErrorHandler.
Import Js Acp.

(** [isACPError(error)] *)
Definition isACPError (error : JsValue) : bool :=
  is_object error && js_in "type" error && js_in "code" error
    && js_in "message" error.

(** [context ? `${context}: ${message}` : message] *)
Definition with_context (context : option string) (message : JsValue) : JsValue :=
  match context with
  | Some c =>
      if given context then JStr (c +:+ ": " +:+ to_string message) else message
  | None => message
  end.

(** [handleStandardError(error, requestId, context)] *)
Definition handleStandardError (error : JsValue) (requestId context : option string)
    : JsValue :=
  let message := with_context context (js_get error "message") in
  let name := js_get error "name" in
  if is_str name "TypeError" || is_str name "RangeError" then
    createACPError "invalid_request" (toLowerCase (to_string name)) message
      JUndefined requestId
  else if is_str name "TimeoutError" then
    createACPError "service_unavailable" "request_timeout" message
      JUndefined requestId
  else
    createACPError "processing_error" "internal_error" message
      JUndefined requestId.

(** [handleHTTPError(status, message, error, requestId)] *)
Definition handleHTTPError (status message error : JsValue)
    (requestId : option string) : JsValue :=
  if is_num status 400 then
    createACPError "invalid_request" "bad_request" message
      (js_get error "param") requestId
  else if is_num status 401 then
    createACPError "invalid_request" "unauthorized"
      (JStr "Invalid or missing API key") JUndefined requestId
  else if is_num status 403 then
    createACPError "invalid_request" "forbidden" (JStr "Access denied")
      JUndefined requestId
  else if is_num status 404 then
    createACPError "invalid_request" "not_found"
      (js_or message (JStr "Resource not found")) JUndefined requestId
  else if is_num status 409 then
    createACPError "request_not_idempotent" "idempotency_conflict"
      (js_or message (JStr "Idempotency key reused with different parameters"))
      JUndefined requestId
  else if is_num status 422 then
    createACPError "invalid_request" "validation_error" message
      (js_get error "param") requestId
  else if is_num status 429 then
    createACPError "rate_limit_exceeded" "rate_limit_exceeded"
      (JStr "Rate limit exceeded. Please try again later.") JUndefined requestId
  else if num_ge status 500 then
    createACPError "service_unavailable" "service_error"
      (JStr "Service temporarily unavailable") JUndefined requestId
  else if num_ge status 400 && num_lt status 500 then
    createACPError "invalid_request" ("http_" +:+ to_string status) message
      JUndefined requestId
  else
    createACPError "processing_error" "http_error" message JUndefined requestId.

(** [handleFalError(error, requestId)] *)
Definition handleFalError (error : JsValue) (requestId : option string) : JsValue :=
  let errorType := js_get error "error_type" in
  let message :=
    js_or (js_or (js_get error "message") (js_get error "detail"))
          (JStr "Fal AI error occurred") in
  if is_str errorType "validation_error" then
    createACPError "invalid_request" "validation_error" message
      (js_get error "param") requestId
  else if is_str errorType "rate_limit_error" then
    createACPError "rate_limit_exceeded" "rate_limit_exceeded" message
      JUndefined requestId
  else if is_str errorType "service_unavailable" then
    createACPError "service_unavailable" "fal_service_unavailable" message
      JUndefined requestId
  else
    createACPError "processing_error" "fal_error" message JUndefined requestId.

(** [error.status || error.statusCode] *)
Definition status_of (error : JsValue) : JsValue :=
  js_or (js_get error "status") (js_get error "statusCode").

(** [handleObjectError(error, requestId, context)] *)
Definition handleObjectError (error : JsValue) (requestId context : option string)
    : JsValue :=
  let status := status_of error in
  let message :=
    js_or (js_or (js_get error "message") (js_get error "error"))
          (JStr "Unknown error occurred") in
  let contextMessage := with_context context message in
  if truthy status then handleHTTPError status contextMessage error requestId
  else if truthy (js_get error "error_type") then handleFalError error requestId
  else if is_str (js_get error "code") "ECONNREFUSED"
          || is_str (js_get error "code") "ETIMEDOUT" then
    createACPError "service_unavailable" "network_error"
      (JStr "Failed to connect to service") JUndefined requestId
  else
    createACPError "processing_error" "unknown_error" contextMessage
      JUndefined requestId.

(** [formatACPError(error, requestId?, context?)] *)
Definition formatACPError (error : JsValue) (requestId context : option string)
    : JsValue :=
  if isACPError error then error
  else if instanceof_Error error then handleStandardError error requestId context
  else if is_object error then handleObjectError error requestId context
  else
    createACPError "processing_error" "unknown_error" (JStr (to_string error))
      JUndefined requestId.

(** [createToolErrorResponse(error)] *)
Definition errorMessage (error : JsValue) : Props :=
  [("type", js_get error "type"); ("code", js_get error "code");
   ("message", js_get error "message")]
  ++ (if truthy (js_get error "param")
      then [("param", js_get error "param")] else [])
  ++ (if truthy (js_get error "request_id")
      then [("request_id", js_get error "request_id")] else []).

Definition text_of (s : option string) : JsValue :=
  match s with Some t => JStr t | None => JUndefined end.

Definition createToolErrorResponse (error : JsValue) : JsValue :=
  JObj Plain
    [("content",
      JArr [JObj Plain
              [("type", JStr "text");
               ("text", text_of (JSON_stringify_2 (JObj Plain (errorMessage error))))]]);
     ("isError", JBool true)].

(** The five categories of [ACPErrorType]. *)
Definition ACPErrorTypes : list string :=
  ["invalid_request"; "request_not_idempotent"; "processing_error";
   "service_unavailable"; "rate_limit_exceeded"].

End ErrorHandler.


(* ===================================================================== *)
(** ** [src/services/cache.ts]: [IdempotencyCache]                         *)
(* ===================================================================== *)

Module Cache.
Import Js Acp.

(** [IdempotencyEntry] of [src/types/acp.ts] *)
Record IdempotencyEntry : Type := {
  key : string;
  paramsHash : string;
  response : JsValue;
  expiresAt : Z
}.

(** The fields of the class the methods below use: the [Map] and the
    time-to-live in milliseconds. *)
Record IdempotencyCache : Type := {
  cache : gmap string IdempotencyEntry;
  ttl : Z
}.

(** [new IdempotencyCache(ttlSeconds)] *)
Definition create (ttlSeconds : Z) : IdempotencyCache :=
  {| cache := ∅; ttl := ttlSeconds * 1000 |}.

(** The order of [Array.prototype.sort()] without a comparator, on the
    byte strings of this model. It is the order of the code units of
    JavaScript for keys in ASCII, and wherever the order of UTF-8 bytes
    and the order of UTF-16 code units agree (they differ only between a
    character above U+FFFF and one from U+E000 to U+FFFF). *)
Definition key_le (a b : string) : Prop := String.leb a b = true.

#[global] Instance key_le_dec (a b : string) : Decision (key_le a b).
Proof. unfold key_le. apply _. Defined.

(** [Object.keys(parameters).sort().reduce((acc, key) => { acc[key] =
    parameters[key]; return acc; }, {})] *)
Definition sorted_copy (parameters : Props) : Props :=
  fold_left
    (fun acc key => obj_assign acc key (js_get (JObj Plain parameters) key))
    (merge_sort key_le (object_keys parameters))
    [].

(** [hashParameters(parameters)] *)
Definition hashParameters (parameters : Props) : string :=
  let sorted := sorted_copy parameters in
  let json := stringify_object sorted in
  Sha256.sha256_hex json.

(** [get(key, parameters)] at time [now = Date.now()]: the entry, [null]
    ([None]) or the thrown conflict, and the cache afterwards. *)
Definition get (c : IdempotencyCache) (k : string) (parameters : Props) (now : Z)
    : Completion (option IdempotencyEntry) JsValue * IdempotencyCache :=
  match cache c !! k with
  | None => (Normal None, c)
  | Some entry =>
      if expiresAt entry <? now then
        (Normal None, {| cache := delete k (cache c); ttl := ttl c |})
      else
        let paramsHash' := hashParameters parameters in
        if negb (String.eqb (paramsHash entry) paramsHash') then
          (Throw (createACPError "request_not_idempotent" "idempotency_conflict"
                    (JStr "Idempotency key reused with different parameters")
                    JUndefined None),
           c)
        else (Normal (Some entry), c)
  end.

(** [set(key, parameters, response)] at time [now] *)
Definition set (c : IdempotencyCache) (k : string) (parameters : Props)
    (resp : JsValue) (now : Z) : IdempotencyCache :=
  let paramsHash' := hashParameters parameters in
  let expiresAt' := now + ttl c in
  let entry := {| key := k; paramsHash := paramsHash';
                  response := resp; expiresAt := expiresAt' |} in
  {| cache := <[k := entry]> (cache c); ttl := ttl c |}.

(** [has(key)] *)
Definition has (c : IdempotencyCache) (k : string) (now : Z)
    : bool * IdempotencyCache :=
  match cache c !! k with
  | None => (false, c)
  | Some entry =>
      if expiresAt entry <? now then
        (false, {| cache := delete k (cache c); ttl := ttl c |})
      else (true, c)
  end.

(** An entry is live at [now] when [has] would keep it. *)
Definition live (c : IdempotencyCache) (k : string) (now : Z) : bool :=
  match cache c !! k with
  | Some entry => negb (expiresAt entry <? now)
  | None => false
  end.

End Cache.


(* ===================================================================== *)
(** ** [src/services/fal-client.ts]: [FalClientService]                    *)
(* ===================================================================== *)

Module FalClient.
Import Js Acp ErrorHandler.

(** What the service does to the outside, in the order it happens. *)
Inductive Event : Type :=
| EvCall (modelSlug : string) (input : Props)  (* [fal.subscribe] *)
| EvSleep (ms : Z)                             (* [this.sleep(ms)] *)
| EvFetch (modelSlug : string)                 (* [fetch(.../openapi.json)] *)
| EvCacheGet (key : string)                    (* [this.cache.get] *)
| EvCacheSet (key : string).                   (* [this.cache.set] *)

(** The outside world: the result of the n-th upstream call and of the
    n-th schema download, the UUIDs [crypto.randomUUID] hands out, and
    the text of a date. *)
Record Env : Type := {
  subscribe : nat -> string -> Props -> Completion JsValue JsValue;
  fetchSchemaFromAPI : nat -> string -> Completion JsValue JsValue;
  randomUUID : nat -> string;
  toISOString : Z -> string
}.

(** The fields of the service, with the clock and the trace. *)
Record FalClientService : Type := {
  cache : Cache.IdempotencyCache;
  schemaCache : gmap string (JsValue * Z);
  SCHEMA_CACHE_TTL : Z;
  MAX_RETRIES : Z;
  INITIAL_RETRY_DELAY : Z;
  clock : Z;
  events : list Event;
  uuids : nat
}.

Definition log (e : Event) (w : FalClientService) : FalClientService :=
  {| cache := cache w; schemaCache := schemaCache w;
     SCHEMA_CACHE_TTL := SCHEMA_CACHE_TTL w; MAX_RETRIES := MAX_RETRIES w;
     INITIAL_RETRY_DELAY := INITIAL_RETRY_DELAY w;
     clock := clock w; events := events w ++ [e]; uuids := uuids w |}.

Definition with_cache (c : Cache.IdempotencyCache) (w : FalClientService)
    : FalClientService :=
  {| cache := c; schemaCache := schemaCache w;
     SCHEMA_CACHE_TTL := SCHEMA_CACHE_TTL w; MAX_RETRIES := MAX_RETRIES w;
     INITIAL_RETRY_DELAY := INITIAL_RETRY_DELAY w;
     clock := clock w; events := events w; uuids := uuids w |}.

Definition with_schemaCache (m : gmap string (JsValue * Z)) (w : FalClientService)
    : FalClientService :=
  {| cache := cache w; schemaCache := m;
     SCHEMA_CACHE_TTL := SCHEMA_CACHE_TTL w; MAX_RETRIES := MAX_RETRIES w;
     INITIAL_RETRY_DELAY := INITIAL_RETRY_DELAY w;
     clock := clock w; events := events w; uuids := uuids w |}.

(** The longest delay a timer takes: [2^31 - 1] milliseconds. *)
Definition TIMEOUT_MAX : Z := 2147483647.

(** The delay [setTimeout(f, ms)] waits: [ms] from 1 to [TIMEOUT_MAX],
    and 1 for every other [ms]. *)
Definition timer_delay (ms : Z) : Z :=
  if (1 <=? ms) && (ms <=? TIMEOUT_MAX) then ms else 1.

(** [sleep(ms)]: [new Promise((resolve) => setTimeout(resolve, ms))]. The
    trace keeps the [ms] asked for; the clock moves by what the timer
    waits. *)
Definition sleep (ms : Z) (w : FalClientService) : FalClientService :=
  let w' := log (EvSleep ms) w in
  {| cache := cache w'; schemaCache := schemaCache w';
     SCHEMA_CACHE_TTL := SCHEMA_CACHE_TTL w'; MAX_RETRIES := MAX_RETRIES w';
     INITIAL_RETRY_DELAY := INITIAL_RETRY_DELAY w';
     clock := clock w' + timer_delay ms; events := events w'; uuids := uuids w' |}.

(** [generateUUID()] *)
Definition generateUUID (env : Env) (w : FalClientService)
    : string * FalClientService :=
  (randomUUID env (uuids w),
   {| cache := cache w; schemaCache := schemaCache w;
      SCHEMA_CACHE_TTL := SCHEMA_CACHE_TTL w; MAX_RETRIES := MAX_RETRIES w;
      INITIAL_RETRY_DELAY := INITIAL_RETRY_DELAY w;
      clock := clock w; events := events w; uuids := S (uuids w) |}).

Fixpoint count_calls (evs : list Event) : nat :=
  match evs with
  | [] => O
  | EvCall _ _ :: evs' => S (count_calls evs')
  | _ :: evs' => count_calls evs'
  end.

Fixpoint count_fetches (evs : list Event) : nat :=
  match evs with
  | [] => O
  | EvFetch _ :: evs' => S (count_fetches evs')
  | _ :: evs' => count_fetches evs'
  end.

(** An operation handed to [callWithRetry]: one attempt. *)
Definition Operation : Type :=
  FalClientService -> Completion JsValue JsValue * FalClientService.

(** [isClientError(error)]; its [error?.status || error?.statusCode] is
    [status_of], as [js_get] already gives [undefined] on [null] and
    [undefined]. *)
Definition isClientError (error : JsValue) : bool :=
  let status := status_of error in
  num_ge status 400 && num_lt status 500.

(** The values [attempt] takes in
    [for (let attempt = 0; attempt <= maxRetries; attempt++)]. *)
Definition attempt_range (maxRetries : Z) : list Z :=
  map Z.of_nat (seq 0 (Z.to_nat (maxRetries + 1))).

(** The body of the loop of [callWithRetry], over the attempts left. *)
Fixpoint retry_loop (fn : Operation) (maxRetries initialDelay : Z)
    (attempts : list Z) (lastError : JsValue) (w : FalClientService)
    : Completion JsValue JsValue * FalClientService :=
  match attempts with
  | [] => (Throw lastError, w)
  | attempt :: rest =>
      match fn w with
      | (Normal r, w1) => (Normal r, w1)
      | (Throw error, w1) =>
          let lastError' :=
            if instanceof_Error error then error
            else JObj (ErrorInst "Error" "Unknown error") [] in
          if isClientError error then (Throw error, w1)
          else if attempt =? maxRetries then (Throw error, w1)
          else
            let delay := initialDelay * 2 ^ attempt in
            retry_loop fn maxRetries initialDelay rest lastError' (sleep delay w1)
      end
  end.

(** [callWithRetry(fn, maxRetries, initialDelay)] *)
Definition callWithRetry (fn : Operation) (maxRetries initialDelay : Z)
    (w : FalClientService) : Completion JsValue JsValue * FalClientService :=
  retry_loop fn maxRetries initialDelay (attempt_range maxRetries) JUndefined w.

(** An operation that calls the provider: it leaves the call in the
    trace and completes as the outside decides for a call of that rank. *)
Definition upstream (results : nat -> Completion JsValue JsValue)
    (modelSlug : string) (input : Props) : Operation :=
  fun w => (results (count_calls (events w)), log (EvCall modelSlug input) w).

(** [() => fal.subscribe(modelSlug, { input: parameters, logs: true })] *)
Definition subscribe_op (env : Env) (modelSlug : string) (parameters : Props)
    : Operation :=
  upstream (fun n => subscribe env n modelSlug parameters) modelSlug parameters.

(** The trace of a call that fails [maxRetries + 1] times and is retried
    each time but the last: a call and a sleep per attempt
    [0 .. maxRetries - 1], then the last call. *)
Definition failed_attempts (call : Event) (maxRetries initialDelay : Z) : list Event :=
  flat_map (fun attempt => [call; EvSleep (initialDelay * 2 ^ attempt)])
           (attempt_range (maxRetries - 1))
  ++ [call].

(** [ACPRequestOptions] *)
Record ACPRequestOptions : Type := {
  idempotencyKey : option string;
  requestId : option string
}.

(** [x || this.generateUUID()] *)
Definition or_uuid (env : Env) (x : option string) (w : FalClientService)
    : string * FalClientService :=
  match x with
  | Some s => if given x then (s, w) else generateUUID env w
  | None => generateUUID env w
  end.

(** [{ ...v }]: the own enumerable properties of [v]; the elements of an
    array and the characters of a string under their indices. *)
Definition spread (v : JsValue) : Props :=
  match v with
  | JObj _ ps => ps
  | JArr items => imap (fun i x => (pretty i, x)) items
  | JStr s =>
      imap (fun i c => (pretty i, JStr (String.String c String.EmptyString)))
           (list_ascii_of_string s)
  | _ => []
  end.

(** [{ ...v, k1: x1, ... }] *)
Definition extend (base : Props) (more : Props) : Props :=
  fold_left (fun acc kx => obj_set acc (fst kx) (snd kx)) more base.

(** The value returned on a cache hit. *)
Definition cached_result (resp : JsValue) (rid : string) : JsValue :=
  JObj Plain
    (extend (spread resp)
       [("metadata",
         JObj Plain
           (extend (spread (js_get resp "metadata"))
              [("cached", JBool true); ("request_id", JStr rid)]))]).

(** The [FalResponse] built after a successful call. *)
Definition fresh_response (env : Env) (result : JsValue)
    (modelSlug rid ikey : string) (now : Z) : JsValue :=
  JObj Plain
    [("data", result);
     ("request_id", JStr rid);
     ("metadata",
      JObj Plain
        [("model", JStr modelSlug);
         ("timestamp", JStr (toISOString env now));
         ("idempotency_key", JStr ikey);
         ("cached", JBool false)])].

(** The second [try] of [generate]: call upstream with retries, cache
    and return the response, or throw the formatted error. *)
Definition call_and_store (env : Env) (modelSlug : string) (parameters : Props)
    (options : ACPRequestOptions) (rid ikey : string)
    (w : FalClientService) : Completion JsValue JsValue * FalClientService :=
  match callWithRetry (subscribe_op env modelSlug parameters)
          (MAX_RETRIES w) (INITIAL_RETRY_DELAY w) w with
  | (Normal result, w1) =>
      let response := fresh_response env result modelSlug rid ikey (clock w1) in
      let w2 :=
        match idempotencyKey options with
        | Some k =>
            if given (idempotencyKey options) then
              with_cache (Cache.set (cache w1) k parameters response (clock w1))
                         (log (EvCacheSet k) w1)
            else w1
        | None => w1
        end in
      (Normal response, w2)
  | (Throw error, w1) =>
      (Throw (formatACPError error (Some rid) (Some "Generation failed")), w1)
  end.

(** [generate(modelSlug, parameters, options)] *)
Definition generate (env : Env) (modelSlug : string) (parameters : Props)
    (options : ACPRequestOptions) (w : FalClientService)
    : Completion JsValue JsValue * FalClientService :=
  let '(rid, w) := or_uuid env (requestId options) w in
  let '(ikey, w) := or_uuid env (idempotencyKey options) w in
  let continue := call_and_store env modelSlug parameters options rid ikey in
  match idempotencyKey options with
  | Some k =>
      if given (idempotencyKey options) then
        match Cache.get (cache w) k parameters (clock w) with
        | (Normal (Some cached), c) =>
            let w1 := with_cache c (log (EvCacheGet k) w) in
            match Cache.response cached with
            | JUndefined | JNull =>
                (* [cached.response.metadata] throws a TypeError, which the
                   [catch] logs and drops *)
                continue w1
            | resp => (Normal (cached_result resp rid), w1)
            end
        | (Normal None, c) => continue (with_cache c (log (EvCacheGet k) w))
        | (Throw error, c) =>
            let w1 := with_cache c (log (EvCacheGet k) w) in
            if truthy error && is_object error && js_in "type" error
            then (Throw error, w1)
            else continue w1
        end
      else continue w
  | None => continue w
  end.

(** What [generate] leaves in the trace before it calls upstream. *)
Definition lookup_events (options : ACPRequestOptions) : list Event :=
  match idempotencyKey options with
  | Some k => if given (idempotencyKey options) then [EvCacheGet k] else []
  | None => []
  end.

(** The cache has nothing to return for the key of [options], if any. *)
Definition lookup_misses (options : ACPRequestOptions) (parameters : Props)
    (w : FalClientService) : Prop :=
  forall k, idempotencyKey options = Some k -> given (Some k) = true ->
    fst (Cache.get (cache w) k parameters (clock w)) = Normal None.

(** [w'] comes from [w] without any schema download and without touching
    the schema cache of the service. *)
Definition no_fetch (w w' : FalClientService) : Prop :=
  count_fetches (events w') = count_fetches (events w)
  /\ schemaCache w' = schemaCache w.

(** Time passing between two requests. *)
Definition advance (dt : Z) (w : FalClientService) : FalClientService :=
  {| cache := cache w; schemaCache := schemaCache w;
     SCHEMA_CACHE_TTL := SCHEMA_CACHE_TTL w; MAX_RETRIES := MAX_RETRIES w;
     INITIAL_RETRY_DELAY := INITIAL_RETRY_DELAY w;
     clock := clock w + dt; events := events w; uuids := uuids w |}.

(** [s.includes(sub)] *)
Fixpoint includes (sub s : string) : bool :=
  String.prefix sub s
  || match s with
     | String.EmptyString => false
     | String.String _ s' => includes sub s'
     end.

(** [getFallbackSchema(modelSlug)] *)
Definition url_property (what : string) : JsValue :=
  JObj Plain
    [("type", JStr "string");
     ("description", JStr ("URL of the input " +:+ what));
     ("format", JStr "uri")].

Definition getFallbackSchema (modelSlug : string) : JsValue :=
  let properties :=
    [("prompt",
      JObj Plain
        [("type", JStr "string");
         ("description", JStr "Input prompt for generation")])] in
  let properties :=
    if includes "image-to-" modelSlug || includes "img2" modelSlug
    then obj_set properties "image_url" (url_property "image") else properties in
  let properties :=
    if includes "audio-to-" modelSlug || includes "speech" modelSlug
    then obj_set properties "audio_url" (url_property "audio") else properties in
  let properties :=
    if includes "video-to-" modelSlug
    then obj_set properties "video_url" (url_property "video") else properties in
  JObj Plain [("type", JStr "object"); ("properties", JObj Plain properties)].

(** [fetchSchema(modelSlug)] *)
Definition fetchSchema (env : Env) (modelSlug : string) (w : FalClientService)
    : JsValue * FalClientService :=
  let download (_ : unit) :=
    let w1 := log (EvFetch modelSlug) w in
    match fetchSchemaFromAPI env (count_fetches (events w)) modelSlug with
    | Normal schema =>
        (schema,
         with_schemaCache (<[modelSlug := (schema, clock w1)]> (schemaCache w1)) w1)
    | Throw _ => (getFallbackSchema modelSlug, w1)
    end in
  match schemaCache w !! modelSlug with
  | Some (schema, timestamp) =>
      if clock w - timestamp <? SCHEMA_CACHE_TTL w then (schema, w)
      else download tt
  | None => download tt
  end.

End FalClient.

(* ===================================================================== *)
(** ** [src/types/fal.ts] and [src/tools/generator.ts]                     *)
(* ===================================================================== *)

Module Generator.
Import Js Acp ErrorHandler FalClient.

(** [FalModel], the fields the handlers read. *)
Record FalModel : Type := {
  slug : string;
  name : string;
  category : string;
  description : string
}.

Fixpoint drop (n : nat) (s : string) : string :=
  match n, s with
  | S n', String.String _ s' => drop n' s'
  | _, _ => s
  end.

Fixpoint map_chars (f : ascii -> ascii) (s : string) : string :=
  match s with
  | String.EmptyString => String.EmptyString
  | String.String c s' => String.String (f c) (map_chars f s')
  end.

(** [`fal_${slug.replace(/^fal-ai\//, '').replace(/[\/\-\.]/g, '_')}`] *)
Definition sanitizeSlugToToolName (s : string) : string :=
  let stripped := if String.prefix "fal-ai/" s then drop 7 s else s in
  "fal_" +:+
    map_chars
      (fun c =>
         if Ascii.eqb c "/"%char || Ascii.eqb c "-"%char || Ascii.eqb c "."%char
         then "_"%char else c)
      stripped.

(** A [tools/call] request: [params.name], [params.arguments] and the
    two fields of [params._meta] the handler reads. *)
Record CallRequest : Type := {
  toolName : string;
  arguments : option Props;
  meta_requestId : option string;
  meta_idempotencyKey : option string
}.

(** The state the handler closes over: the client and [schemaCache]. *)
Record Handler : Type := {
  client : FalClientService;
  schemaCache : gmap string JsValue
}.

Definition text_content (text : JsValue) : JsValue :=
  JArr [JObj Plain [("type", JStr "text"); ("text", text)]].

(** The reply to a name that is no tool of the catalog. *)
Definition tool_not_found (name' : string) : JsValue :=
  JObj Plain
    [("content",
      text_content
        (text_of (JSON_stringify
                    (JObj Plain [("error", JStr ("Tool not found: " +:+ name'))]))));
     ("isError", JBool true)].

(** [if (!schemaCache.has(model.slug)) { const schema = await
    client.fetchSchema(model.slug); schemaCache.set(model.slug, schema); }] *)
Definition load_schema (env : Env) (model : FalModel) (h : Handler) : Handler :=
  match schemaCache h !! slug model with
  | Some _ => h
  | None =>
      let '(schema, c) := fetchSchema env (slug model) (client h) in
      {| client := c; schemaCache := <[slug model := schema]> (schemaCache h) |}
  end.

(** [models.find((m) => sanitizeSlugToToolName(m.slug) === toolName)] *)
Definition find_model (models : list FalModel) (name' : string) : option FalModel :=
  List.find (fun m => String.eqb (sanitizeSlugToToolName (slug m)) name') models.

(** The handler registered for [tools/call]. *)
Definition tools_call (env : Env) (models : list FalModel) (request : CallRequest)
    (h : Handler) : JsValue * Handler :=
  match find_model models (toolName request) with
  | None => (tool_not_found (toolName request), h)
  | Some model =>
      let h1 := load_schema env model h in
      let params := match arguments request with Some ps => ps | None => [] end in
      match generate env (slug model) params
              {| requestId := meta_requestId request;
                 idempotencyKey := meta_idempotencyKey request |}
              (client h1) with
      | (Normal result, c) =>
          (JObj Plain [("content", text_content (text_of (JSON_stringify_2 result)))],
           {| client := c; schemaCache := schemaCache h1 |})
      | (Throw error, c) =>
          (createToolErrorResponse
             (formatACPError error None (Some ("Tool: " +:+ toolName request))),
           {| client := c; schemaCache := schemaCache h1 |})
      end
  end.

(** The handler some time after a request. *)
Definition later (dt : Z) (h : Handler) : Handler :=
  {| client := advance dt (client h); schemaCache := schemaCache h |}.

End Generator.


(* ===================================================================== *)
(** ** Notions and concrete inputs the properties below are stated with    *)
(* ===================================================================== *)

(** Splits on every boolean test left in the goal. *)
Ltac split_ifs :=
  repeat match goal with
         | |- context [if ?b then _ else _] => destruct b
         end.

Module Scenario.
Import Js Acp ErrorHandler Cache FalClient Generator.

(** The error [get] throws on a key reused with other parameters. *)
Definition conflict : JsValue :=
  createACPError "request_not_idempotent" "idempotency_conflict"
    (JStr "Idempotency key reused with different parameters") JUndefined None.

(** Two values that differ only in the order of the keys of their
    objects, at any depth. *)
Inductive same_up_to_key_order : JsValue -> JsValue -> Prop :=
| same_value v : same_up_to_key_order v v
| same_array xs ys :
    Forall2 same_up_to_key_order xs ys ->
    same_up_to_key_order (JArr xs) (JArr ys)
| same_object kind ps qs qs' :
    ps ≡ₚ qs' ->
    Forall2 (fun p q => fst p = fst q /\ same_up_to_key_order (snd p) (snd q)) qs' qs ->
    same_up_to_key_order (JObj kind ps) (JObj kind qs).

Definition nested_xy : Props := [("a", JObj Plain [("x", JNum 1); ("y", JNum 2)])].
Definition nested_yx : Props := [("a", JObj Plain [("y", JNum 2); ("x", JNum 1)])].

(** A formatted error whose [request_id] differs from the one passed. *)
Definition formatted_req_123 : JsValue :=
  createACPError "invalid_request" "test_error" (JStr "Test message")
    (JStr "$.test.field") (Some "req-123").

(** An object with the three properties and a [type] outside the five
    categories; its other fields are not strings. *)
Definition teapot : JsValue :=
  JObj Plain
    [("type", JStr "teapot"); ("code", JNum 418); ("message", JNull);
     ("param", JArr [JBool true])].

(** The scenario of the test suite: [{prompt: 'test1'}] stored under
    ["test-key"] with a 24 hour time-to-live, then read with
    [{prompt: 'test2'}] one second later. *)
Definition stored_test1 : IdempotencyCache :=
  set (create 86400) "test-key" [("prompt", JStr "test1")]
      (JObj Plain [("data", JObj Plain [("result", JStr "success")])]) 0.

Definition entry_test1 : IdempotencyEntry :=
  {| key := "test-key";
     paramsHash := hashParameters [("prompt", JStr "test1")];
     response := JObj Plain [("data", JObj Plain [("result", JStr "success")])];
     expiresAt := 86400000 |}.

(** The service as its constructor leaves it with the default settings:
    24 hours for the cache, one hour for schemas, 4 retries from 2000 ms. *)
Definition default_service : FalClientService :=
  {| FalClient.cache := create 86400;
     FalClient.schemaCache := ∅;
     SCHEMA_CACHE_TTL := 3600 * 1000;
     MAX_RETRIES := 4;
     INITIAL_RETRY_DELAY := 2000;
     clock := 0;
     events := [];
     uuids := 0 |}.

(** An outside where every upstream call fails with [e] and every schema
    download fails. *)
Definition failing_env (e : JsValue) : Env :=
  {| subscribe := fun _ _ _ => Throw e;
     fetchSchemaFromAPI :=
       fun _ _ => Throw (JObj (ErrorInst "Error" "HTTP 404: Not Found") []);
     randomUUID := fun n => "uuid-" +:+ pretty n;
     toISOString := fun _ => "1970-01-01T00:00:00.000Z" |}.

(** Failures as the provider's client reports them. *)
Definition unavailable : JsValue := JObj Plain [("status", JNum 503)].
Definition not_found : JsValue :=
  JObj Plain [("status", JNum 404); ("message", JStr "Model not found")].
Definition server_exception : JsValue :=
  JObj (ErrorInst "Error" "Internal Server Error") [("status", JNum 500)].

Definition prompt_x : Props := [("prompt", JStr "x")].

Definition no_options : ACPRequestOptions :=
  {| idempotencyKey := None; requestId := None |}.

(** A catalog of one model, and the handler before its first request. *)
Definition flux_pro : FalModel :=
  {| slug := "fal-ai/flux-pro"; name := "FLUX Pro";
     category := "Text-to-Image";
     description := "State-of-the-art text-to-image model" |}.

Definition fresh_handler : Handler :=
  {| client := default_service; Generator.schemaCache := ∅ |}.

Definition call_flux_pro : CallRequest :=
  {| toolName := "fal_flux_pro"; arguments := Some prompt_x;
     meta_requestId := Some "req-1"; meta_idempotencyKey := None |}.

Definition call_unknown : CallRequest :=
  {| toolName := "fal_unknown"; arguments := Some prompt_x;
     meta_requestId := Some "req-1"; meta_idempotencyKey := Some "k1" |}.

End Scenario.


(* ===================================================================== *)
(** ** [src/services/cache.ts]: the other methods of [IdempotencyCache]    *)
(* ===================================================================== *)

Module CacheOps.
Import Js Acp Cache.

(** [delete(key)]: whether the [Map] had the key, and the cache without it. *)
Definition delete (c : IdempotencyCache) (k : string) : bool * IdempotencyCache :=
  (bool_decide (is_Some (cache c !! k)),
   {| cache := base.delete k (cache c); ttl := ttl c |}).

(** [clear()] *)
Definition clear (c : IdempotencyCache) : IdempotencyCache :=
  {| cache := ∅; ttl := ttl c |}.

(** One turn of the loop of [cleanup]: [if (now > entry.expiresAt)
    { this.cache.delete(key); removed++; }] *)
Definition cleanup_step (now : Z) (k : string) (entry : IdempotencyEntry)
    (acc : gmap string IdempotencyEntry * nat) : gmap string IdempotencyEntry * nat :=
  if expiresAt entry <? now then (base.delete k (fst acc), S (snd acc)) else acc.

(** [cleanup()] at time [now]: the number of entries removed and the cache
    afterwards. The loop visits every entry of the [Map] once. *)
Definition cleanup (c : IdempotencyCache) (now : Z) : nat * IdempotencyCache :=
  let r := map_fold (cleanup_step now) (cache c, O) (cache c) in
  (snd r, {| cache := fst r; ttl := ttl c |}).

(** [getStats().size] *)
Definition stats_size (c : IdempotencyCache) : nat := size (cache c).

(** An entry that [cleanup], [get] and [has] treat as expired at [now]. *)
Definition expired (now : Z) (kv : string * IdempotencyEntry) : Prop :=
  expiresAt (snd kv) < now.

#[global] Instance expired_dec (now : Z) (kv : string * IdempotencyEntry) :
  Decision (expired now kv).
Proof. unfold expired. apply _. Defined.

End CacheOps.


(* ===================================================================== *)
(** ** Notions the properties of [generate] are stated with                *)
(* ===================================================================== *)

Module ClientNotions.
Import Js Acp FalClient.

(** [v === null || v === undefined]: the values a property cannot be
    read from. *)
Definition nullish (v : JsValue) : bool :=
  match v with JUndefined | JNull => true | _ => false end.

(** The options of a request that carries the idempotency key [k]. *)
Definition keyed (options : ACPRequestOptions) (k : string) : Prop :=
  idempotencyKey options = Some k /\ given (Some k) = true.

(** An outside where every upstream call answers [v] and every schema
    download answers [schema]. *)
Definition answering_env (v schema : JsValue) : Env :=
  {| subscribe := fun _ _ _ => Normal v;
     fetchSchemaFromAPI := fun _ _ => Normal schema;
     randomUUID := fun n => "uuid-" +:+ pretty n;
     toISOString := fun _ => "1970-01-01T00:00:00.000Z" |}.

Definition one_image : JsValue :=
  JObj Plain [("images", JArr [JObj Plain [("url", JStr "https://fal.media/a.png")]])].

Definition keyed_options : ACPRequestOptions :=
  {| idempotencyKey := Some "k1"; requestId := Some "req-1" |}.

End ClientNotions.


(* ===================================================================== *)
(** ** [src/types/acp.ts]: headers and status codes                        *)
(* ===================================================================== *)

Module AcpHeaders.
Import Js Acp.

Definition ACP_API_VERSION : string := "2025-09-29".

(** [createACPHeaders(apiKey, options = {})]: the four headers the
    function sets, then [...options]. *)
Definition createACPHeaders (apiKey : string) (options : Props) : Props :=
  fold_left (fun acc kx => obj_set acc (fst kx) (snd kx)) options
    [("Authorization", JStr ("Bearer " +:+ apiKey));
     ("Content-Type", JStr "application/json");
     ("API-Version", JStr ACP_API_VERSION);
     ("User-Agent",
      js_or (js_get (JObj Plain options) "User-Agent") (JStr "FalAI-MCP/1.0"))].

(** [ACP_ERROR_STATUS_CODES] *)
Definition ACP_ERROR_STATUS_CODES : Props :=
  [("invalid_request", JNum 400);
   ("request_not_idempotent", JNum 409);
   ("processing_error", JNum 500);
   ("service_unavailable", JNum 503);
   ("rate_limit_exceeded", JNum 429)].

End AcpHeaders.

Module ErrorReplies.
Import Js Acp.

(** What [handleHTTPError] returns for the statuses whose message is fixed. *)
Definition fixed_reply (s : Z) (rid : option string) : JsValue :=
  if s =? 401 then
    createACPError "invalid_request" "unauthorized"
      (JStr "Invalid or missing API key") JUndefined rid
  else if s =? 403 then
    createACPError "invalid_request" "forbidden" (JStr "Access denied") JUndefined rid
  else if s =? 429 then
    createACPError "rate_limit_exceeded" "rate_limit_exceeded"
      (JStr "Rate limit exceeded. Please try again later.") JUndefined rid
  else
    createACPError "service_unavailable" "service_error"
      (JStr "Service temporarily unavailable") JUndefined rid.

End ErrorReplies.


(* ===================================================================== *)
(** ** [src/services/fal-client.ts]: [cleanup]                             *)
(* ===================================================================== *)

Module ServiceOps.
Import Js Acp FalClient.

(** The body of [for (const [slug, cached] of this.schemaCache.entries())]. *)
Definition sweep_step (now ttl' : Z) (slug' : string) (cached : JsValue * Z)
    (acc : gmap string (JsValue * Z)) : gmap string (JsValue * Z) :=
  if now - snd cached >? ttl' then base.delete slug' acc else acc.

(** [cleanup()] at time [Date.now() = clock]. *)
Definition cleanup (w : FalClientService) : FalClientService :=
  {| cache := snd (CacheOps.cleanup (cache w) (clock w));
     schemaCache :=
       map_fold (sweep_step (clock w) (SCHEMA_CACHE_TTL w))
                (schemaCache w) (schemaCache w);
     SCHEMA_CACHE_TTL := SCHEMA_CACHE_TTL w; MAX_RETRIES := MAX_RETRIES w;
     INITIAL_RETRY_DELAY := INITIAL_RETRY_DELAY w;
     clock := clock w; events := events w; uuids := uuids w |}.

(** The service has no schema for [modelSlug] that [fetchSchema] would
    return without a download. *)
Definition no_fresh_schema (w : FalClientService) (modelSlug : string) : Prop :=
  forall schema timestamp,
    schemaCache w !! modelSlug = Some (schema, timestamp) ->
    SCHEMA_CACHE_TTL w <= clock w - timestamp.

End ServiceOps.

(* ===================================================================== *)
(** ** [src/tools/generator.ts]: the names of the tools                    *)
(* ===================================================================== *)

Module ToolNames.
Import Js Generator.

(** [getAllToolNames(models)] *)
Definition getAllToolNames (models : list FalModel) : list string :=
  map (fun model => sanitizeSlugToToolName (slug model)) models.

(** [findModelByToolName(models, toolName)] *)
Definition findModelByToolName (models : list FalModel) (toolName' : string)
    : option FalModel :=
  List.find (fun model => String.eqb (sanitizeSlugToToolName (slug model)) toolName')
            models.

(** The characters [sanitizeSlugToToolName] replaces, and what it puts
    for a character. *)
Definition separators : list string := ["/"; "-"; "."].

Definition underscore (c : ascii) : ascii :=
  if Ascii.eqb c "/"%char || Ascii.eqb c "-"%char || Ascii.eqb c "."%char
  then "_"%char else c.

End ToolNames.


(* ===================================================================== *)
(** * Properties                                                           *)
(* ===================================================================== *)

(** ** The digest agrees with published SHA-256 values *)

Example sha256_abc :
  Sha256.sha256_hex "abc"
  = "ba7816bf8f01cfea414140de5dae2223b00361a396177a9cb410ff61f20015ad".
Proof. vm_compute. reflexivity. Qed.

Example sha256_empty :
  Sha256.sha256_hex ""
  = "e3b0c44298fc1c149afbf4c8996fb92427ae41e4649b934ca495991b7852b855".
Proof. vm_compute. reflexivity. Qed.

Example sha256_two_blocks :
  Sha256.sha256_hex "abcdbcdecdefdefgefghfghighijhijkijkljklmklmnlmnomnopnopq"
  = "248d6a61d20638b8e5c026930c3e6039a33ce45964ff2167f6ecedd419db06c1".
Proof. vm_compute. reflexivity. Qed.

Example sha256_constants :
  length Sha256.K = 64%nat /\ nth 0 Sha256.K 0 = 0x428a2f98
  /\ nth 63 Sha256.K 0 = 0xc67178f2
  /\ length Sha256.H0 = 8%nat /\ nth 0 Sha256.H0 0 = 0x6a09e667
  /\ nth 7 Sha256.H0 0 = 0x5be0cd19.
Proof. vm_compute. repeat split; reflexivity. Qed.

(** ** Error normalization *)

Section Normalization.
Import Js Acp ErrorHandler Scenario.

(** Whatever [createACPError] builds passes [isACPError]. *)
Lemma isACPError_createACPError type code message param requestId :
  isACPError (createACPError type code message param requestId) = true.
Proof.
  unfold createACPError.
  destruct (truthy param); destruct requestId as [r|];
    try destruct (given (Some r)); reflexivity.
Qed.

(** The three fields of what [createACPError] builds. *)
Lemma createACPError_fields type code message param requestId :
  let e := createACPError type code message param requestId in
  js_get e "type" = JStr type /\ js_get e "code" = JStr code
  /\ js_get e "message" = message.
Proof.
  unfold createACPError.
  destruct (truthy param); destruct requestId as [r|];
    try destruct (given (Some r)); repeat split; reflexivity.
Qed.

Lemma isACPError_handleStandardError error requestId context :
  isACPError (handleStandardError error requestId context) = true.
Proof.
  unfold handleStandardError. split_ifs; apply isACPError_createACPError.
Qed.

Lemma isACPError_handleHTTPError status message error requestId :
  isACPError (handleHTTPError status message error requestId) = true.
Proof.
  unfold handleHTTPError. split_ifs; apply isACPError_createACPError.
Qed.

Lemma isACPError_handleFalError error requestId :
  isACPError (handleFalError error requestId) = true.
Proof.
  unfold handleFalError. split_ifs; apply isACPError_createACPError.
Qed.

Lemma isACPError_handleObjectError error requestId context :
  isACPError (handleObjectError error requestId context) = true.
Proof.
  unfold handleObjectError.
  destruct (truthy (status_of error)).
  - apply isACPError_handleHTTPError.
  - destruct (truthy (js_get error "error_type")).
    + apply isACPError_handleFalError.
    + split_ifs; apply isACPError_createACPError.
Qed.

(** Every output of [formatACPError] has the shape [isACPError] tests. *)
Lemma isACPError_formatACPError error requestId context :
  isACPError (formatACPError error requestId context) = true.
Proof.
  unfold formatACPError.
  destruct (isACPError error) eqn:Hacp; [exact Hacp|].
  destruct (instanceof_Error error).
  - apply isACPError_handleStandardError.
  - destruct (is_object error).
    + apply isACPError_handleObjectError.
    + apply isACPError_createACPError.
Qed.

(** An error that already has the shape is handed back as it is. *)
Lemma formatACPError_passthrough error requestId context :
  isACPError error = true -> formatACPError error requestId context = error.
Proof. intros H. unfold formatACPError. rewrite H. reflexivity. Qed.

(** C6. [formatACPError] is idempotent: formatting an already formatted
    error, with any request id and context, gives it back; and an input
    that already has [type], [code] and [message] is returned as it is,
    so none of its fields (type, code, message, param, request_id) changes
    and the [requestId] argument overwrites nothing. *)
Theorem formatACPError_idempotent :
  forall (x : JsValue) (rid ctx rid' ctx' : option string),
    formatACPError (formatACPError x rid ctx) rid' ctx' = formatACPError x rid ctx
    /\ (isACPError x = true -> formatACPError x rid' ctx' = x).
Proof.
  intros x rid ctx rid' ctx'. split.
  - apply formatACPError_passthrough, isACPError_formatACPError.
  - apply formatACPError_passthrough.
Qed.

Lemma formatACPError_idempotent_witness :
  formatACPError formatted_req_123 (Some "req-456") None = formatted_req_123.
Proof.
  apply (proj2 (formatACPError_idempotent formatted_req_123 None None
                  (Some "req-456") None)).
  reflexivity.
Defined.

(** C10. The test for an already formatted error is structural: any
    object that has [type], [code] and [message] properties is returned
    unchanged, whatever their values; so there is an input whose output
    has a [type] that is none of the five categories. *)
Theorem formatACPError_structural :
  (forall (x : JsValue) (rid ctx : option string),
      is_object x = true ->
      js_in "type" x = true -> js_in "code" x = true -> js_in "message" x = true ->
      formatACPError x rid ctx = x)
  /\ (exists (x : JsValue) (rid ctx : option string) (t : string),
        js_get (formatACPError x rid ctx) "type" = JStr t
        /\ is_object x = true
        /\ forallb (fun c => negb (String.eqb t c)) ACPErrorTypes = true).
Proof.
  split.
  - intros x rid ctx Hobj Ht Hc Hm. apply formatACPError_passthrough.
    unfold isACPError. rewrite Hobj, Ht, Hc, Hm. reflexivity.
  - exists teapot, (Some "req-1"), None, "teapot". repeat split; reflexivity.
Qed.

Lemma formatACPError_structural_witness :
  formatACPError teapot (Some "req-1") (Some "Tool: fal_x") = teapot.
Proof.
  apply (proj1 formatACPError_structural); reflexivity.
Defined.

End Normalization.


(** ** The idempotency cache *)

Section IdempotencyCache.
Import Js Acp Cache Scenario.

(** C1. For a key with a live entry, [get] with parameters whose digest
    differs from the stored one throws the error of type
    [request_not_idempotent] and code [idempotency_conflict]; the cache is
    left as it was and no entry is returned. *)
Theorem get_conflict :
  forall (c : IdempotencyCache) (k : string) (parameters : Props) (now : Z)
         (entry : IdempotencyEntry),
    cache c !! k = Some entry ->
    now <= expiresAt entry ->
    paramsHash entry <> hashParameters parameters ->
    get c k parameters now = (Throw conflict, c)
    /\ js_get conflict "type" = JStr "request_not_idempotent"
    /\ js_get conflict "code" = JStr "idempotency_conflict".
Proof.
  intros c k parameters now entry Hlookup Hlive Hdigest.
  split; [|split; reflexivity].
  unfold get. rewrite Hlookup.
  destruct (Z.ltb_spec (expiresAt entry) now) as [Hexpired|_]; [lia|].
  destruct (String.eqb_spec (paramsHash entry) (hashParameters parameters))
    as [Heq|_]; [contradiction|].
  reflexivity.
Qed.

Lemma get_conflict_witness :
  get stored_test1 "test-key" [("prompt", JStr "test2")] 1000
  = (Throw conflict, stored_test1).
Proof.
  refine (proj1 (get_conflict stored_test1 "test-key" [("prompt", JStr "test2")]
                   1000 entry_test1 _ _ _)).
  - vm_compute. reflexivity.
  - vm_compute. discriminate.
  - vm_compute. discriminate.
Defined.

(** C9, as the code has it. [set] writes unconditionally: afterwards the
    key holds an entry with the digest of the parameters passed, the
    response passed and [expiresAt = now + ttl], whatever was stored
    before; the other keys and the time-to-live are untouched. *)
Theorem set_overwrites :
  forall (c : IdempotencyCache) (k : string) (parameters : Props)
         (resp : JsValue) (now : Z),
    cache (set c k parameters resp now) !! k
    = Some {| key := k; paramsHash := hashParameters parameters;
              response := resp; expiresAt := now + ttl c |}
    /\ (forall k', k' <> k -> cache (set c k parameters resp now) !! k' = cache c !! k')
    /\ ttl (set c k parameters resp now) = ttl c.
Proof.
  intros c k parameters resp now. unfold set. simpl. repeat split.
  - apply lookup_insert_eq.
  - intros k' Hne. apply lookup_insert_ne. congruence.
Qed.

(** C9 as stated fails: a second [set] for a live key with the same
    parameters replaces the response and moves [expiresAt]. *)
Lemma set_live_entry_replaced :
  let p := [("prompt", JStr "x")] in
  let c1 := set (create 86400) "k1" p (JStr "first") 0 in
  let c2 := set c1 "k1" p (JStr "second") 5000 in
  live c1 "k1" 5000 = true
  /\ (paramsHash <$> cache c1 !! "k1") = Some (hashParameters p)
  /\ (response <$> cache c1 !! "k1") = Some (JStr "first")
  /\ (response <$> cache c2 !! "k1") = Some (JStr "second")
  /\ (expiresAt <$> cache c1 !! "k1") = Some 86400000
  /\ (expiresAt <$> cache c2 !! "k1") = Some 86405000
  /\ cache c2 !! "k1" <> cache c1 !! "k1".
Proof.
  vm_compute. repeat split; discriminate.
Qed.

(** *** The digest and the order of keys *)

(** C2 fails below the top level. [hashParameters] sorts the keys of the
    parameters object only: [{a: {x: 1, y: 2}}] and [{a: {y: 2, x: 1}}]
    differ in the order of the keys of a nested object and get different
    digests, so reading with the one what was stored with the other is
    reported as a conflict. *)
Theorem hashParameters_nested_key_order :
  same_up_to_key_order (JObj Plain nested_xy) (JObj Plain nested_yx)
  /\ stringify_object (sorted_copy nested_xy) = "{" +:+ quote "a" +:+ ":{"
       +:+ quote "x" +:+ ":1," +:+ quote "y" +:+ ":2}}"
  /\ stringify_object (sorted_copy nested_yx) = "{" +:+ quote "a" +:+ ":{"
       +:+ quote "y" +:+ ":2," +:+ quote "x" +:+ ":1}}"
  /\ hashParameters nested_xy
     = "a9fdcd2ed3b1c70bdf32595fe6ad510857975eda307bf160f5c63b066732ea47"
  /\ hashParameters nested_yx
     = "0087b643d97f725865b34cd4d8a592f93a7cc199a7ad14ad973173ccbf70bc1d"
  /\ fst (get (set (create 86400) "k1" nested_xy JNull 0) "k1" nested_yx 1000)
     = Throw conflict.
Proof.
  split.
  - apply (same_object Plain nested_xy nested_yx nested_xy); [reflexivity|].
    constructor; [|constructor]. split; [reflexivity|].
    apply (same_object Plain _ _ [("y", JNum 2); ("x", JNum 1)]).
    + apply perm_swap.
    + repeat constructor.
  - vm_compute. repeat split; reflexivity.
Qed.

End IdempotencyCache.


(** *** What the sort in [hashParameters] does achieve *)

Section TopLevelOrder.
Import Js Acp Cache.

Lemma string_leb_trans (a b c : string) :
  String.leb a b = true -> String.leb b c = true -> String.leb a c = true.
Proof.
  unfold String.leb. revert b c.
  induction a as [|x a IH]; intros [|y b] [|z c]; simpl; try done.
  unfold Ascii.compare.
  destruct (N.compare_spec (N_of_ascii x) (N_of_ascii y)),
           (N.compare_spec (N_of_ascii y) (N_of_ascii z)),
           (N.compare_spec (N_of_ascii x) (N_of_ascii z));
    try done; try lia.
  apply IH.
Qed.

#[local] Instance key_le_total : Total key_le.
Proof. intros a b. apply String.leb_total. Qed.

#[local] Instance key_le_trans : Transitive key_le.
Proof. intros a b c. apply string_leb_trans. Qed.

#[local] Instance key_le_antisymm : AntiSymm (=) key_le.
Proof. intros a b. apply String.leb_antisym. Qed.

(** Sorting forgets the order the keys came in. *)
Lemma sort_keys_perm (ks1 ks2 : list string) :
  ks1 ≡ₚ ks2 -> merge_sort key_le ks1 = merge_sort key_le ks2.
Proof.
  intros Hperm. apply (Sorted_unique key_le).
  - apply Sorted_merge_sort, _.
  - apply Sorted_merge_sort, _.
  - rewrite !merge_sort_Permutation. exact Hperm.
Qed.

Lemma assoc_None (k : string) (ps : Props) :
  k ∉ map fst ps -> assoc k ps = None.
Proof.
  induction ps as [|[k' x] ps IH]; simpl; [done|].
  intros Hnot. destruct (String.eqb_spec k k') as [->|Hne].
  - exfalso. apply Hnot. left.
  - apply IH. intros Hin. apply Hnot. by right.
Qed.

(** With distinct keys, a property is found wherever it stands. *)
Lemma assoc_perm (k : string) (ps qs : Props) :
  NoDup (map fst ps) -> ps ≡ₚ qs -> assoc k ps = assoc k qs.
Proof.
  intros Hnodup Hperm. revert Hnodup.
  induction Hperm as [|[k1 x1] ps qs Hperm IH
                      |[k1 x1] [k2 x2] ps
                      |ps qs rs Hpq IHpq Hqr IHqr]; intros Hnodup.
  - reflexivity.
  - simpl in *. apply NoDup_cons in Hnodup as [_ Hnodup].
    destruct (String.eqb k k1); [reflexivity|]. by apply IH.
  - simpl in *. apply NoDup_cons in Hnodup as [Hnot _].
    destruct (String.eqb_spec k k2) as [E2|_], (String.eqb_spec k k1) as [E1|_];
      try reflexivity.
    exfalso. apply Hnot. subst. left.
  - rewrite IHpq by done. apply IHqr.
    by rewrite <- Hpq.
Qed.

(** The copy [hashParameters] serializes does not depend on the order in
    which the top-level properties were written. *)
Lemma sorted_copy_perm (ps qs : Props) :
  NoDup (map fst ps) -> ps ≡ₚ qs -> sorted_copy ps = sorted_copy qs.
Proof.
  intros Hnodup Hperm. unfold sorted_copy, object_keys.
  rewrite (sort_keys_perm (map fst ps) (map fst qs)) by (by rewrite Hperm).
  generalize (merge_sort key_le (map fst qs)) as keys.
  generalize (@nil (string * JsValue)) as acc.
  intros acc keys. revert acc.
  induction keys as [|key keys IH]; intros acc; simpl; [reflexivity|].
  rewrite (assoc_perm key ps qs Hnodup Hperm). apply IH.
Qed.

(** The part of C2 that holds: reordering the top-level keys of the
    parameters leaves the digest unchanged. *)
Lemma hashParameters_top_level_order (ps qs : Props) :
  NoDup (map fst ps) -> ps ≡ₚ qs -> hashParameters ps = hashParameters qs.
Proof.
  intros Hnodup Hperm. unfold hashParameters.
  by rewrite (sorted_copy_perm ps qs Hnodup Hperm).
Qed.

End TopLevelOrder.


(** ** Retrying *)

Section Retry.
Import Js Acp ErrorHandler FalClient.

Lemma count_calls_app (evs evs' : list Event) :
  count_calls (evs ++ evs')%list = (count_calls evs + count_calls evs')%nat.
Proof.
  induction evs as [|[] evs IH]; simpl; rewrite ?IH; reflexivity.
Qed.

Lemma attempt_range_cons (maxRetries : Z) :
  0 <= maxRetries ->
  attempt_range maxRetries = map Z.of_nat (seq 0 (S (Z.to_nat maxRetries))).
Proof.
  intros Hpos. unfold attempt_range.
  replace (maxRetries + 1) with (Z.succ maxRetries) by lia.
  rewrite Z2Nat.inj_succ by lia. reflexivity.
Qed.

Lemma attempt_range_pred (maxRetries : Z) :
  0 <= maxRetries ->
  attempt_range (maxRetries - 1) = map Z.of_nat (seq 0 (Z.to_nat maxRetries)).
Proof.
  intros Hpos. unfold attempt_range.
  replace (maxRetries - 1 + 1) with maxRetries by lia. reflexivity.
Qed.

(** A 4xx status makes a client error; a status of 500 or more does not. *)
Lemma isClientError_4xx (e : JsValue) (s : Z) :
  status_of e = JNum s -> 400 <= s < 500 -> isClientError e = true.
Proof.
  intros Hs [Hlo Hhi]. unfold isClientError, num_ge, num_lt. rewrite Hs. simpl.
  apply andb_true_intro. split; [apply Z.leb_le | apply Z.ltb_lt]; lia.
Qed.

Lemma isClientError_5xx (e : JsValue) (s : Z) :
  status_of e = JNum s -> 500 <= s -> isClientError e = false.
Proof.
  intros Hs Hlo. unfold isClientError, num_ge, num_lt. rewrite Hs. simpl.
  apply andb_false_intro2. apply Z.ltb_ge. lia.
Qed.

(** A client error ends [callWithRetry] at the attempt that meets it. *)
Lemma callWithRetry_client_error (fn : Operation) (maxRetries initialDelay : Z)
    (w w1 : FalClientService) (e : JsValue) :
  0 <= maxRetries ->
  fn w = (Throw e, w1) ->
  isClientError e = true ->
  callWithRetry fn maxRetries initialDelay w = (Throw e, w1).
Proof.
  intros Hpos Hfn Hclient. unfold callWithRetry.
  rewrite attempt_range_cons by exact Hpos. simpl.
  rewrite Hfn, Hclient. reflexivity.
Qed.

Lemma retry_loop_cons (fn : Operation) (maxRetries initialDelay attempt : Z)
    (rest : list Z) (lastError : JsValue) (w : FalClientService) :
  retry_loop fn maxRetries initialDelay (attempt :: rest) lastError w
  = match fn w with
    | (Normal r, w1) => (Normal r, w1)
    | (Throw error, w1) =>
        if isClientError error then (Throw error, w1)
        else if attempt =? maxRetries then (Throw error, w1)
        else retry_loop fn maxRetries initialDelay rest
               (if instanceof_Error error then error
                else JObj (ErrorInst "Error" "Unknown error") [])
               (sleep (initialDelay * 2 ^ attempt) w1)
    end.
Proof. reflexivity. Qed.

(** The loop over attempts [a .. a + m], the last of which is
    [maxRetries], when no failure is a client error: every attempt is
    made, each but the last followed by its sleep, and the failure of the
    last one is thrown. *)
Lemma retry_loop_all_fail (results : nat -> Completion JsValue JsValue)
    (errs : nat -> JsValue) (modelSlug : string)
    (input : Props) (maxRetries initialDelay : Z) :
  (forall n, results n = Throw (errs n)) ->
  (forall n, isClientError (errs n) = false) ->
  forall (m a : nat) (lastError : JsValue) (w : FalClientService),
    Z.of_nat (a + m) = maxRetries ->
    let r := retry_loop (upstream results modelSlug input)
               maxRetries initialDelay (map Z.of_nat (seq a (S m))) lastError w in
    fst r = Throw (errs (count_calls (events w) + m)%nat)
    /\ events (snd r)
       = (events w
          ++ flat_map (fun attempt => [EvCall modelSlug input;
                                       EvSleep (initialDelay * 2 ^ attempt)])
                      (map Z.of_nat (seq a m))
          ++ [EvCall modelSlug input])%list.
Proof.
  intros Hres Hserver m. induction m as [|m IH]; intros a lastError w Hlast.
  - cbn [seq map retry_loop upstream]. rewrite Hres, Hserver.
    replace (Z.of_nat a =? maxRetries) with true by (symmetry; apply Z.eqb_eq; lia).
    cbn. split; [f_equal; f_equal; lia | reflexivity].
  - replace (map Z.of_nat (seq a (S (S m))))
      with (Z.of_nat a :: map Z.of_nat (seq (S a) (S m))) by reflexivity.
    rewrite retry_loop_cons. unfold upstream at 1. rewrite Hres, Hserver.
    replace (Z.of_nat a =? maxRetries) with false by (symmetry; apply Z.eqb_neq; lia).
    specialize (IH (S a)
      (if instanceof_Error (errs (count_calls (events w))) then
         errs (count_calls (events w))
       else JObj (ErrorInst "Error" "Unknown error") [])
      (sleep (initialDelay * 2 ^ Z.of_nat a) (log (EvCall modelSlug input) w))).
    destruct IH as [IHr IHev]; [lia|]. split.
    + rewrite IHr. cbn [sleep log events]. rewrite !count_calls_app. cbn.
      f_equal. f_equal. lia.
    + rewrite IHev. cbn [sleep log events seq map flat_map].
      rewrite <- !app_assoc. reflexivity.
Qed.

(** [callWithRetry] on an operation that never succeeds and never fails
    with a client error. *)
Lemma callWithRetry_all_fail (results : nat -> Completion JsValue JsValue)
    (errs : nat -> JsValue) (modelSlug : string)
    (input : Props) (maxRetries initialDelay : Z) (w : FalClientService) :
  0 <= maxRetries ->
  (forall n, results n = Throw (errs n)) ->
  (forall n, isClientError (errs n) = false) ->
  let r := callWithRetry (upstream results modelSlug input)
             maxRetries initialDelay w in
  fst r = Throw (errs (count_calls (events w) + Z.to_nat maxRetries)%nat)
  /\ events (snd r)
     = (events w ++ failed_attempts (EvCall modelSlug input) maxRetries initialDelay)%list.
Proof.
  intros Hpos Hres Hserver. unfold callWithRetry, failed_attempts.
  rewrite attempt_range_cons, attempt_range_pred by exact Hpos.
  apply (retry_loop_all_fail results errs modelSlug input maxRetries initialDelay
           Hres Hserver).
  lia.
Qed.

(** The attempts in that trace: [maxRetries + 1] calls. *)
Lemma count_calls_failed_attempts (modelSlug : string) (input : Props)
    (maxRetries initialDelay : Z) :
  0 <= maxRetries ->
  count_calls (failed_attempts (EvCall modelSlug input) maxRetries initialDelay)
  = Z.to_nat (maxRetries + 1).
Proof.
  intros Hpos. unfold failed_attempts.
  rewrite attempt_range_pred by exact Hpos.
  replace (maxRetries + 1) with (Z.succ maxRetries) by lia.
  rewrite Z2Nat.inj_succ by lia.
  generalize (Z.to_nat maxRetries) as m. generalize 0%nat as a.
  intros a m. revert a. induction m as [|m IH]; intros a.
  - reflexivity.
  - cbn [seq map flat_map]. rewrite <- app_assoc. cbn. f_equal. apply IH.
Qed.

(** A failure with a status of 500 or more that is neither an instance
    of [Error] nor already formatted becomes [service_unavailable]. *)
Lemma formatACPError_server_error (e : JsValue) (s : Z) (rid ctx : option string) :
  status_of e = JNum s -> 500 <= s ->
  instanceof_Error e = false -> isACPError e = false ->
  formatACPError e rid ctx
  = createACPError "service_unavailable" "service_error"
      (JStr "Service temporarily unavailable") JUndefined rid.
Proof.
  intros Hs Hlo Hinst Hacp. unfold formatACPError. rewrite Hacp, Hinst.
  assert (is_object e = true) as ->.
  { destruct e; try discriminate Hs; reflexivity. }
  unfold handleObjectError. rewrite Hs. cbn [truthy].
  replace (s =? 0) with false by (symmetry; apply Z.eqb_neq; lia).
  cbn [negb]. unfold handleHTTPError, is_num, num_ge. cbn [to_number].
  repeat match goal with
         | |- context [s =? ?n] =>
             replace (s =? n) with false by (symmetry; apply Z.eqb_neq; lia)
         end.
  replace (500 <=? s) with true by (symmetry; apply Z.leb_le; lia).
  reflexivity.
Qed.

Lemma or_uuid_frame (env : Env) (x : option string) (w : FalClientService) :
  let w' := snd (or_uuid env x w) in
  events w' = events w /\ cache w' = cache w /\ clock w' = clock w
  /\ MAX_RETRIES w' = MAX_RETRIES w
  /\ INITIAL_RETRY_DELAY w' = INITIAL_RETRY_DELAY w.
Proof.
  unfold or_uuid. destruct x as [s|]; [destruct (given (Some s))|];
    repeat split; reflexivity.
Qed.

(** The second half of [generate] when every upstream call fails with a
    failure that is not a client error. *)
Lemma call_and_store_all_fail (env : Env) (modelSlug : string) (parameters : Props)
    (options : ACPRequestOptions) (rid ikey : string) (w : FalClientService)
    (errs : nat -> JsValue) :
  0 <= MAX_RETRIES w ->
  (forall n, subscribe env n modelSlug parameters = Throw (errs n)) ->
  (forall n, isClientError (errs n) = false) ->
  let r := call_and_store env modelSlug parameters options rid ikey w in
  fst r = Throw (formatACPError
                   (errs (count_calls (events w) + Z.to_nat (MAX_RETRIES w))%nat)
                   (Some rid) (Some "Generation failed"))
  /\ events (snd r)
     = (events w ++ failed_attempts (EvCall modelSlug parameters)
                      (MAX_RETRIES w) (INITIAL_RETRY_DELAY w))%list.
Proof.
  intros Hpos Hfail Hserver. unfold call_and_store, subscribe_op.
  pose proof (callWithRetry_all_fail
                (fun n => subscribe env n modelSlug parameters) errs modelSlug
                parameters (MAX_RETRIES w) (INITIAL_RETRY_DELAY w) w
                Hpos Hfail Hserver) as [Hr Hev].
  destruct (callWithRetry _ _ _ w) as [res w1]. cbn [fst snd] in Hr, Hev.
  subst res. cbn [fst snd]. split; [reflexivity | exact Hev].
Qed.



End Retry.


(** ** The retrying call of [generate] *)

Section Generate.
Import Js Acp ErrorHandler FalClient Scenario.

(** C4. An operation whose failure carries a status from 400 to 499 is
    run once: [callWithRetry] throws that failure at once, whatever the
    number of retries allowed, and the trace gains the one call and no
    sleep. *)
Theorem callWithRetry_client_error_once :
  forall (results : nat -> Completion JsValue JsValue) (modelSlug : string)
         (input : Props) (maxRetries initialDelay : Z) (w : FalClientService)
         (e : JsValue) (s : Z),
    0 <= maxRetries ->
    results (count_calls (events w)) = Throw e ->
    status_of e = JNum s ->
    400 <= s < 500 ->
    let r := callWithRetry (upstream results modelSlug input)
               maxRetries initialDelay w in
    r = (Throw e, log (EvCall modelSlug input) w)
    /\ events (snd r) = (events w ++ [EvCall modelSlug input])%list
    /\ clock (snd r) = clock w.
Proof.
  intros results modelSlug input maxRetries initialDelay w e s
         Hpos Hres Hstatus Hrange r.
  assert (r = (Throw e, log (EvCall modelSlug input) w)) as Hr.
  { apply callWithRetry_client_error; [exact Hpos| |].
    - unfold upstream. rewrite Hres. reflexivity.
    - exact (isClientError_4xx e s Hstatus Hrange). }
  rewrite Hr. repeat split; reflexivity.
Qed.

Lemma callWithRetry_client_error_once_witness :
  callWithRetry (upstream (fun _ => Throw not_found) "fal-ai/flux-pro" prompt_x)
    4 2000 default_service
  = (Throw not_found, log (EvCall "fal-ai/flux-pro" prompt_x) default_service).
Proof.
  refine (proj1 (callWithRetry_client_error_once (fun _ => Throw not_found)
                   "fal-ai/flux-pro" prompt_x 4 2000 default_service
                   not_found 404 _ _ _ _)).
  - lia.
  - reflexivity.
  - reflexivity.
  - lia.
Defined.




(** C3, as the code has it. When every upstream call fails with a status
    of 500 or more and the cache has nothing for the request, [generate]
    makes [MAX_RETRIES + 1] calls, sleeps
    [INITIAL_RETRY_DELAY * 2 ^ attempt] after each but the last, and throws
    the last failure as [formatACPError] renders it: this is
    [service_unavailable] / [service_error] when that failure is neither
    an instance of [Error] nor already has [type], [code] and [message]. *)
Theorem generate_retries_exhausted :
  forall (env : Env) (modelSlug : string) (parameters : Props)
         (options : ACPRequestOptions) (w : FalClientService)
         (errs : nat -> JsValue),
    0 <= MAX_RETRIES w ->
    (forall n, subscribe env n modelSlug parameters = Throw (errs n)) ->
    (forall n, exists s, status_of (errs n) = JNum s /\ 500 <= s) ->
    lookup_misses options parameters w ->
    let r := generate env modelSlug parameters options w in
    let call := EvCall modelSlug parameters in
    let attempts := failed_attempts call (MAX_RETRIES w) (INITIAL_RETRY_DELAY w) in
    let last := errs (count_calls (events w) + Z.to_nat (MAX_RETRIES w))%nat in
    let rid := Some (fst (or_uuid env (requestId options) w)) in
    events (snd r) = (events w ++ lookup_events options ++ attempts)%list
    /\ count_calls attempts = Z.to_nat (MAX_RETRIES w + 1)
    /\ fst r = Throw (formatACPError last rid (Some "Generation failed"))
    /\ (instanceof_Error last = false -> isACPError last = false ->
        fst r = Throw (createACPError "service_unavailable" "service_error"
                         (JStr "Service temporarily unavailable") JUndefined rid)).
Proof.
  intros env modelSlug parameters options w errs Hpos Hfail Hstatus Hmiss
         r call attempts last rid.
  assert (forall n, isClientError (errs n) = false) as Hserver.
  { intros n. destruct (Hstatus n) as (s & Hs & Hlo).
    exact (isClientError_5xx (errs n) s Hs Hlo). }
  assert (events (snd r) = (events w ++ lookup_events options ++ attempts)%list
          /\ fst r = Throw (formatACPError last rid (Some "Generation failed")))
    as [Hev Hr].
  { subst r rid last attempts call. unfold generate.
    pose proof (or_uuid_frame env (requestId options) w) as F1.
    destruct (or_uuid env (requestId options) w) as [rid0 w1].
    pose proof (or_uuid_frame env (idempotencyKey options) w1) as F2.
    destruct (or_uuid env (idempotencyKey options) w1) as [ikey w2].
    cbn [fst snd] in F1, F2 |- *.
    destruct F1 as (Fe1 & Fc1 & Fk1 & Fm1 & Fd1).
    destruct F2 as (Fe2 & Fc2 & Fk2 & Fm2 & Fd2).
    rewrite Fe1 in Fe2. rewrite Fc1 in Fc2. rewrite Fk1 in Fk2.
    rewrite Fm1 in Fm2. rewrite Fd1 in Fd2.
    unfold lookup_events, lookup_misses in *.
    destruct (idempotencyKey options) as [k|] eqn:Ek;
      [destruct (given (Some k)) eqn:Eg|].
    - specialize (Hmiss k eq_refl Eg). rewrite Fc2, Fk2.
      destruct (Cache.get (cache w) k parameters (clock w)) as [res c'].
      cbn [fst] in Hmiss. subst res.
      pose proof (call_and_store_all_fail env modelSlug parameters options
                    rid0 ikey (with_cache c' (log (EvCacheGet k) w2)) errs) as H.
      cbn [with_cache log MAX_RETRIES INITIAL_RETRY_DELAY events] in H.
      rewrite Fm2, Fd2, Fe2 in H. specialize (H Hpos Hfail Hserver).
      cbn zeta in H. destruct H as [Hr Hev].
      rewrite count_calls_app in Hr. cbn [count_calls] in Hr.
      rewrite Nat.add_0_r in Hr.
      split; [rewrite Hev, <- app_assoc; reflexivity | exact Hr].
    - pose proof (call_and_store_all_fail env modelSlug parameters options
                    rid0 ikey w2 errs) as H.
      rewrite Fm2, Fd2, Fe2 in H. specialize (H Hpos Hfail Hserver).
      cbn zeta in H. destruct H as [Hr Hev].
      split; [rewrite Hev; reflexivity | exact Hr].
    - pose proof (call_and_store_all_fail env modelSlug parameters options
                    rid0 ikey w2 errs) as H.
      rewrite Fm2, Fd2, Fe2 in H. specialize (H Hpos Hfail Hserver).
      cbn zeta in H. destruct H as [Hr Hev].
      split; [rewrite Hev; reflexivity | exact Hr]. }
  split; [exact Hev|]. split.
  { apply count_calls_failed_attempts. exact Hpos. }
  split; [exact Hr|].
  intros Hinst Hacp. rewrite Hr. f_equal.
  destruct (Hstatus (count_calls (events w) + Z.to_nat (MAX_RETRIES w))%nat)
    as (s & Hs & Hlo).
  exact (formatACPError_server_error last s rid (Some "Generation failed")
           Hs Hlo Hinst Hacp).
Qed.

Lemma generate_retries_exhausted_witness :
  fst (generate (failing_env unavailable) "fal-ai/flux-pro" prompt_x no_options
         default_service)
  = Throw (createACPError "service_unavailable" "service_error"
             (JStr "Service temporarily unavailable") JUndefined (Some "uuid-0")).
Proof.
  refine (proj2 (proj2 (proj2
            (generate_retries_exhausted (failing_env unavailable) "fal-ai/flux-pro"
               prompt_x no_options default_service (fun _ => unavailable)
               _ _ _ _))) _ _).
  - vm_compute. discriminate.
  - intros n. reflexivity.
  - intros n. exists 503. split; [reflexivity | lia].
  - intros k Hk. discriminate Hk.
  - reflexivity.
  - reflexivity.
Defined.

(** C3 as stated fails: a failure that is an instance of [Error] and
    carries status 500 is retried like any other, and then formatted by
    its name, as [processing_error] / [internal_error]. *)
Lemma generate_error_instance_not_service_unavailable :
  let r := generate (failing_env server_exception) "fal-ai/flux-pro" prompt_x
             no_options default_service in
  status_of server_exception = JNum 500
  /\ count_calls (events (snd r)) = 5%nat
  /\ fst r = Throw (createACPError "processing_error" "internal_error"
                      (JStr "Generation failed: Internal Server Error")
                      JUndefined (Some "uuid-0"))
  /\ is_str (js_get (createACPError "processing_error" "internal_error"
                       (JStr "Generation failed: Internal Server Error")
                       JUndefined (Some "uuid-0")) "type")
            "service_unavailable" = false.
Proof.
  vm_compute. repeat split; reflexivity.
Qed.

End Generate.


(** ** The [tools/call] handler *)

Section ToolsCall.
Import Js Acp ErrorHandler FalClient Generator Scenario.

(** C7 fails on the code in what is returned. For a name that matches no
    model the handler returns at once, leaving the client (cache, trace of
    upstream calls, schema caches) as it was; but the reply carries the
    text [{"error":"Tool not found: <name>"}], which is not what
    [createToolErrorResponse] makes of any error of type
    [invalid_request]. *)
Theorem tools_call_unknown_tool :
  forall (env : Env) (models : list FalModel) (request : CallRequest) (h : Handler),
    find_model models (toolName request) = None ->
    tools_call env models request h = (tool_not_found (toolName request), h)
    /\ tool_not_found (toolName request)
       = JObj Plain
           [("content",
             JArr [JObj Plain
                     [("type", JStr "text");
                      ("text",
                       JStr ("{" +:+ quote "error" +:+ ":"
                             +:+ quote ("Tool not found: " +:+ toolName request)
                             +:+ "}"))]]);
            ("isError", JBool true)]
    /\ (forall e : JsValue,
           js_get e "type" = JStr "invalid_request" ->
           createToolErrorResponse e <> tool_not_found (toolName request)).
Proof.
  intros env models request h Hfind. split; [|split].
  - unfold tools_call. rewrite Hfind. reflexivity.
  - reflexivity.
  - intros e Htype Heq.
    unfold createToolErrorResponse, tool_not_found, text_content, errorMessage in Heq.
    rewrite Htype in Heq. cbn in Heq. discriminate Heq.
Qed.

Lemma tools_call_unknown_tool_witness :
  tools_call (failing_env unavailable) [flux_pro] call_unknown fresh_handler
  = (tool_not_found "fal_unknown", fresh_handler).
Proof.
  refine (proj1 (tools_call_unknown_tool (failing_env unavailable) [flux_pro]
                   call_unknown fresh_handler _)).
  reflexivity.
Defined.

End ToolsCall.


(** ** Schema resolution *)

Section SchemaResolution.
Import Js Acp ErrorHandler FalClient Generator Scenario.

Lemma count_fetches_app (evs evs' : list Event) :
  count_fetches (evs ++ evs')%list = (count_fetches evs + count_fetches evs')%nat.
Proof.
  induction evs as [|[] evs IH]; simpl; rewrite ?IH; reflexivity.
Qed.

Lemma no_fetch_refl (w : FalClientService) : no_fetch w w.
Proof. split; reflexivity. Qed.

Lemma no_fetch_trans (w1 w2 w3 : FalClientService) :
  no_fetch w1 w2 -> no_fetch w2 w3 -> no_fetch w1 w3.
Proof. intros [H1 H2] [H3 H4]. split; congruence. Qed.

Lemma no_fetch_log (e : Event) (w : FalClientService) :
  count_fetches [e] = 0%nat -> no_fetch w (log e w).
Proof.
  intros He. split; [|reflexivity]. cbn [log events].
  rewrite count_fetches_app, He. lia.
Qed.

Lemma no_fetch_sleep (ms : Z) (w : FalClientService) : no_fetch w (sleep ms w).
Proof.
  split; [|reflexivity]. cbn [sleep log events].
  rewrite count_fetches_app. cbn. lia.
Qed.

Lemma no_fetch_or_uuid (env : Env) (x : option string) (w : FalClientService) :
  no_fetch w (snd (or_uuid env x w)).
Proof.
  unfold or_uuid. destruct x as [s|]; [destruct (given (Some s))|];
    split; reflexivity.
Qed.

Lemma no_fetch_with_cache (c : Cache.IdempotencyCache) (w w' : FalClientService) :
  no_fetch w w' -> no_fetch w (with_cache c w').
Proof. intros [H1 H2]. split; assumption. Qed.

Lemma no_fetch_retry_loop (results : nat -> Completion JsValue JsValue)
    (modelSlug : string) (input : Props) (maxRetries initialDelay : Z)
    (attempts : list Z) :
  forall (lastError : JsValue) (w : FalClientService),
    no_fetch w (snd (retry_loop (upstream results modelSlug input) maxRetries
                       initialDelay attempts lastError w)).
Proof.
  induction attempts as [|attempt rest IH]; intros lastError w.
  - apply no_fetch_refl.
  - rewrite retry_loop_cons. unfold upstream at 1.
    assert (no_fetch w (log (EvCall modelSlug input) w)) as Hcall
        by (apply no_fetch_log; reflexivity).
    destruct (results (count_calls (events w))) as [res|error]; [exact Hcall|].
    destruct (isClientError error); [exact Hcall|].
    destruct (attempt =? maxRetries); [exact Hcall|].
    eapply no_fetch_trans; [exact Hcall|].
    eapply no_fetch_trans; [apply no_fetch_sleep|]. apply IH.
Qed.

Lemma no_fetch_call_and_store (env : Env) (modelSlug : string) (parameters : Props)
    (options : ACPRequestOptions) (rid ikey : string) (w : FalClientService) :
  no_fetch w (snd (call_and_store env modelSlug parameters options rid ikey w)).
Proof.
  unfold call_and_store, callWithRetry, subscribe_op.
  pose proof (no_fetch_retry_loop (fun n => subscribe env n modelSlug parameters)
                modelSlug parameters (MAX_RETRIES w) (INITIAL_RETRY_DELAY w)
                (attempt_range (MAX_RETRIES w)) JUndefined w) as Hloop.
  destruct (retry_loop _ _ _ _ _ w) as [[result|error] w1]; cbn [snd] in *;
    [|exact Hloop].
  destruct (idempotencyKey options) as [k|]; [|exact Hloop].
  destruct (given (Some k)); [|exact Hloop].
  apply no_fetch_with_cache. eapply no_fetch_trans; [exact Hloop|].
  apply no_fetch_log. reflexivity.
Qed.

(** [generate] downloads no schema. *)
Lemma no_fetch_generate (env : Env) (modelSlug : string) (parameters : Props)
    (options : ACPRequestOptions) (w : FalClientService) :
  no_fetch w (snd (generate env modelSlug parameters options w)).
Proof.
  unfold generate.
  pose proof (no_fetch_or_uuid env (requestId options) w) as F1.
  destruct (or_uuid env (requestId options) w) as [rid w1].
  pose proof (no_fetch_or_uuid env (idempotencyKey options) w1) as F2.
  destruct (or_uuid env (idempotencyKey options) w1) as [ikey w2].
  cbn [snd] in F1, F2.
  assert (no_fetch w w2) as F by (eapply no_fetch_trans; eassumption).
  clear F1 F2.
  assert (forall w3, no_fetch w w3 ->
            no_fetch w (snd (call_and_store env modelSlug parameters options
                               rid ikey w3))) as Hcont.
  { intros w3 H3. eapply no_fetch_trans; [exact H3|].
    apply no_fetch_call_and_store. }
  destruct (idempotencyKey options) as [k|]; [|apply Hcont, F].
  destruct (given (Some k)); [|apply Hcont, F].
  assert (forall c, no_fetch w (with_cache c (log (EvCacheGet k) w2))) as Hget.
  { intros c. apply no_fetch_with_cache. eapply no_fetch_trans; [exact F|].
    apply no_fetch_log. reflexivity. }
  destruct (Cache.get (cache w2) k parameters (clock w2)) as [[[cached|]|error] c].
  - destruct (Cache.response cached); try (apply Hcont, Hget); apply Hget.
  - apply Hcont, Hget.
  - destruct (truthy error && is_object error && js_in "type" error);
      [apply Hget | apply Hcont, Hget].
Qed.

(** The handler after a request for a tool of the catalog. *)
Lemma tools_call_registered (env : Env) (models : list FalModel)
    (request : CallRequest) (h : Handler) (model : FalModel) :
  find_model models (toolName request) = Some model ->
  snd (tools_call env models request h)
  = {| client :=
         snd (generate env (slug model)
                (match arguments request with Some ps => ps | None => [] end)
                {| requestId := meta_requestId request;
                   idempotencyKey := meta_idempotencyKey request |}
                (client (load_schema env model h)));
       Generator.schemaCache := Generator.schemaCache (load_schema env model h) |}.
Proof.
  intros Hfind. unfold tools_call. rewrite Hfind. cbn zeta.
  destruct (generate _ _ _ _ _) as [[result|error] c]; reflexivity.
Qed.

(** C8 fails on the code. After a request whose schema download failed,
    the handler's own [schemaCache] holds the fallback schema for the
    model, although the service did not cache it; so the next request for
    that tool, however much later, attempts no download. *)
Theorem fallback_schema_sticks :
  forall (env : Env) (models : list FalModel) (request request' : CallRequest)
         (h : Handler) (model : FalModel) (dt : Z),
    find_model models (toolName request) = Some model ->
    toolName request' = toolName request ->
    Generator.schemaCache h !! slug model = None ->
    FalClient.schemaCache (client h) !! slug model = None ->
    (forall n, exists e, fetchSchemaFromAPI env n (slug model) = Throw e) ->
    let h1 := snd (tools_call env models request h) in
    let h2 := snd (tools_call env models request' (later dt h1)) in
    count_fetches (events (client h1)) = S (count_fetches (events (client h)))
    /\ Generator.schemaCache h1 !! slug model = Some (getFallbackSchema (slug model))
    /\ FalClient.schemaCache (client h1) !! slug model = None
    /\ count_fetches (events (client h2)) = count_fetches (events (client h1)).
Proof.
  intros env models request request' h model dt Hfind Hname Hnone Hsvc Hfail h1 h2.
  assert (load_schema env model h
          = {| client := log (EvFetch (slug model)) (client h);
               Generator.schemaCache :=
                 <[slug model := getFallbackSchema (slug model)]>
                   (Generator.schemaCache h) |}) as Hload.
  { unfold load_schema, fetchSchema. rewrite Hnone, Hsvc.
    destruct (Hfail (count_fetches (events (client h)))) as [e ->]. reflexivity. }
  assert (h1 = {| client := client h1;
                  Generator.schemaCache :=
                    <[slug model := getFallbackSchema (slug model)]>
                      (Generator.schemaCache h) |}
          /\ no_fetch (log (EvFetch (slug model)) (client h)) (client h1))
    as [Hh1 [Hcount Hcache]].
  { subst h1. rewrite (tools_call_registered env models request h model Hfind).
    rewrite Hload. cbn [client Generator.schemaCache]. split; [reflexivity|].
    apply no_fetch_generate. }
  assert (Generator.schemaCache h1 !! slug model
          = Some (getFallbackSchema (slug model))) as Hstuck.
  { rewrite Hh1. cbn [Generator.schemaCache]. apply lookup_insert_eq. }
  split; [|split; [exact Hstuck|split]].
  - rewrite Hcount. cbn [log events]. rewrite count_fetches_app. cbn. lia.
  - rewrite Hcache. exact Hsvc.
  - subst h2. rewrite <- Hname in Hfind.
    rewrite (tools_call_registered env models request' (later dt h1) model Hfind).
    cbn [client].
    assert (load_schema env model (later dt h1) = later dt h1) as ->.
    { unfold load_schema, later. cbn [Generator.schemaCache]. rewrite Hstuck.
      reflexivity. }
    destruct (no_fetch_generate env (slug model)
                (match arguments request' with Some ps => ps | None => [] end)
                {| requestId := meta_requestId request';
                   idempotencyKey := meta_idempotencyKey request' |}
                (client (later dt h1))) as [Hcount2 _].
    rewrite Hcount2. reflexivity.
Qed.

Lemma fallback_schema_sticks_witness :
  let h1 := snd (tools_call (failing_env unavailable) [flux_pro] call_flux_pro
                   fresh_handler) in
  let h2 := snd (tools_call (failing_env unavailable) [flux_pro] call_flux_pro
                   (later 7200000 h1)) in
  count_fetches (events (client h2)) = count_fetches (events (client h1)).
Proof.
  refine (proj2 (proj2 (proj2
            (fallback_schema_sticks (failing_env unavailable) [flux_pro]
               call_flux_pro call_flux_pro fresh_handler flux_pro 7200000
               _ _ _ _ _)))).
  - reflexivity.
  - reflexivity.
  - reflexivity.
  - reflexivity.
  - intros n. eexists. reflexivity.
Defined.

End SchemaResolution.


(** ** Reading a property after a write *)

Section PropertyAccess.
Import Js.

Lemma assoc_replace_value (k k' : string) (x : JsValue) (ps : Props) :
  assoc k (replace_value k' x ps)
  = if String.eqb k k' then (match assoc k ps with Some _ => Some x | None => None end)
    else assoc k ps.
Proof.
  induction ps as [|[k0 x0] ps IH]; cbn [replace_value assoc].
  - destruct (String.eqb k k'); reflexivity.
  - destruct (String.eqb_spec k' k0) as [->|Hne]; cbn [assoc].
    + destruct (String.eqb_spec k k0) as [->|Hne']; reflexivity.
    + destruct (String.eqb_spec k k0) as [->|Hne'].
      * destruct (String.eqb_spec k0 k'); [congruence | reflexivity].
      * exact IH.
Qed.

Lemma assoc_insert_index (k k' : string) (i : N) (x : JsValue) (ps : Props) :
  assoc k' ps = None ->
  assoc k (insert_index i k' x ps) = if String.eqb k k' then Some x else assoc k ps.
Proof.
  induction ps as [|[k0 x0] ps IH]; cbn [insert_index assoc]; intros Hnone.
  - reflexivity.
  - destruct (String.eqb_spec k' k0) as [->|Hne0]; [discriminate|].
    destruct (array_index k0) as [j|]; [destruct (j <? i)%N|]; cbn [assoc].
    + destruct (String.eqb_spec k k0) as [->|Hne].
      * destruct (String.eqb_spec k0 k'); [congruence | reflexivity].
      * exact (IH Hnone).
    + reflexivity.
    + reflexivity.
Qed.

Lemma assoc_app_one (k k' : string) (x : JsValue) (ps : Props) :
  assoc k' ps = None ->
  assoc k (ps ++ [(k', x)])%list = if String.eqb k k' then Some x else assoc k ps.
Proof.
  induction ps as [|[k0 x0] ps IH]; cbn [app assoc]; intros Hnone.
  - reflexivity.
  - destruct (String.eqb_spec k' k0) as [->|Hne0]; [discriminate|].
    destruct (String.eqb_spec k k0) as [->|Hne].
    + destruct (String.eqb_spec k0 k'); [congruence | reflexivity].
    + exact (IH Hnone).
Qed.

(** Reading a property after [obj[k'] = x]. *)
Lemma assoc_obj_set (k k' : string) (x : JsValue) (ps : Props) :
  assoc k (obj_set ps k' x) = if String.eqb k k' then Some x else assoc k ps.
Proof.
  unfold obj_set. destruct (assoc k' ps) as [old|] eqn:Hold.
  - rewrite assoc_replace_value.
    destruct (String.eqb_spec k k') as [->|_]; [rewrite Hold|]; reflexivity.
  - destruct (array_index k');
      [apply assoc_insert_index | apply assoc_app_one]; exact Hold.
Qed.

Lemma js_get_obj_set (k k' : string) (x : JsValue) (ps : Props) :
  js_get (JObj Plain (obj_set ps k' x)) k
  = if String.eqb k k' then x else js_get (JObj Plain ps) k.
Proof.
  unfold js_get. rewrite assoc_obj_set.
  destruct (String.eqb k k'); reflexivity.
Qed.

End PropertyAccess.


(** ** More on the idempotency cache *)

Section CacheMore.
Import Js Acp Cache CacheOps Scenario.

(** X1. What [set] stores, [get] returns: reading a key with the
    parameters it was stored with, no later than [ttl] after the [set],
    gives the stored response and leaves the cache as it is. *)
Theorem set_get_roundtrip :
  forall (c : IdempotencyCache) (k : string) (parameters : Props)
         (resp : JsValue) (now now' : Z),
    now' <= now + ttl c ->
    let c1 := set c k parameters resp now in
    get c1 k parameters now'
    = (Normal (Some {| key := k; paramsHash := hashParameters parameters;
                       response := resp; expiresAt := now + ttl c |}), c1).
Proof.
  intros c k parameters resp now now' Hlive c1. subst c1.
  unfold get, set. cbn [cache ttl]. rewrite lookup_insert_eq. cbn [expiresAt paramsHash].
  destruct (Z.ltb_spec (now + ttl c) now') as [Hexp|_]; [lia|].
  rewrite String.eqb_refl. reflexivity.
Qed.

Lemma set_get_roundtrip_witness :
  fst (get (set (create 1) "test-key" prompt_x (JStr "success") 0)
         "test-key" prompt_x 1000)
  = Normal (Some {| key := "test-key"; paramsHash := hashParameters prompt_x;
                    response := JStr "success"; expiresAt := 0 + ttl (create 1) |}).
Proof.
  refine (f_equal fst (set_get_roundtrip (create 1) "test-key" prompt_x
                         (JStr "success") 0 1000 _)).
  vm_compute. discriminate.
Defined.

(** X2. An expired entry is gone on the first read: [get], with any
    parameters (also ones that would conflict), returns [null], removes
    the key and leaves every other key as it was. *)
Theorem get_expired :
  forall (c : IdempotencyCache) (k : string) (parameters : Props) (now : Z)
         (entry : IdempotencyEntry),
    cache c !! k = Some entry ->
    expiresAt entry < now ->
    let r := get c k parameters now in
    fst r = Normal None
    /\ cache (snd r) !! k = None
    /\ (forall k', k' <> k -> cache (snd r) !! k' = cache c !! k')
    /\ fst (get (snd r) k parameters now) = Normal None.
Proof.
  intros c k parameters now entry Hlookup Hexp r.
  assert (r = (Normal None, {| cache := base.delete k (cache c); ttl := ttl c |}))
    as ->.
  { subst r. unfold get. rewrite Hlookup.
    destruct (Z.ltb_spec (expiresAt entry) now) as [_|Hlive]; [reflexivity|lia]. }
  cbn [fst snd cache]. repeat split.
  - apply lookup_delete_eq.
  - intros k' Hne. apply lookup_delete_ne. congruence.
  - unfold get. cbn [cache]. rewrite lookup_delete_eq. reflexivity.
Qed.

Lemma get_expired_witness :
  fst (get stored_test1 "test-key" [("prompt", JStr "test2")] 86400001)
  = Normal None.
Proof.
  refine (proj1 (get_expired stored_test1 "test-key" [("prompt", JStr "test2")]
                   86400001 entry_test1 _ _)).
  - vm_compute. reflexivity.
  - vm_compute. reflexivity.
Defined.

(** X3. [has] and [get] agree on what is there: they leave the same cache
    behind, and [has] answers [false] exactly when [get] returns [null];
    when [has] answers [true], [get] returns the entry or throws the
    conflict, depending on the parameters. *)
Theorem has_agrees_with_get :
  forall (c : IdempotencyCache) (k : string) (parameters : Props) (now : Z),
    snd (has c k now) = snd (get c k parameters now)
    /\ (fst (has c k now) = false <-> fst (get c k parameters now) = Normal None)
    /\ fst (has c k now) = live c k now.
Proof.
  intros c k parameters now. unfold has, get, live.
  destruct (cache c !! k) as [entry|]; [|repeat split; reflexivity].
  destruct (expiresAt entry <? now); [repeat split; reflexivity|].
  destruct (negb (String.eqb (paramsHash entry) (hashParameters parameters)));
    cbn; repeat split; try reflexivity; intros H; discriminate H.
Qed.

(** X4. [delete] reports whether the key was stored (expired or not);
    afterwards [has] and [get] find nothing under it, the other keys are
    untouched, and a second [delete] reports [false]. *)
Theorem delete_removes :
  forall (c : IdempotencyCache) (k : string) (parameters : Props) (now : Z),
    let r := CacheOps.delete c k in
    (fst r = true <-> is_Some (cache c !! k))
    /\ has (snd r) k now = (false, snd r)
    /\ get (snd r) k parameters now = (Normal None, snd r)
    /\ (forall k', k' <> k -> cache (snd r) !! k' = cache c !! k')
    /\ fst (CacheOps.delete (snd r) k) = false.
Proof.
  intros c k parameters now r. subst r. unfold CacheOps.delete, has, get.
  cbn [fst snd cache]. rewrite lookup_delete_eq. repeat split.
  - apply bool_decide_eq_true.
  - apply bool_decide_eq_true.
  - intros k' Hne. apply lookup_delete_ne. congruence.
Qed.

(** The state of the loop of [cleanup] after the entries of [m], a part
    of the cache [full], have been visited. *)
Lemma cleanup_fold (now : Z) (full m : gmap string IdempotencyEntry) :
  let r := map_fold (cleanup_step now) (full, O) m in
  (forall k, fst r !! k
             = match m !! k with
               | Some entry => if expiresAt entry <? now then None else full !! k
               | None => full !! k
               end)
  /\ snd r = size (filter (expired now) m).
Proof.
  apply (map_fold_weak_ind
           (fun r m =>
              (forall k, fst r !! k
                         = match m !! k with
                           | Some entry =>
                               if expiresAt entry <? now then None else full !! k
                           | None => full !! k
                           end)
              /\ snd r = size (filter (expired now) m))).
  - split; [intros k; rewrite lookup_empty; reflexivity|].
    rewrite map_filter_empty. reflexivity.
  - intros i x m' [acc n] Hnone [IHacc IHn]. cbn [fst snd] in IHacc, IHn.
    unfold cleanup_step. cbn [fst snd].
    destruct (Z.ltb_spec (expiresAt x) now) as [Hexp|Hlive]; cbn [fst snd]; split.
    + intros k. destruct (decide (k = i)) as [->|Hne].
      * rewrite lookup_delete_eq, lookup_insert_eq.
        destruct (Z.ltb_spec (expiresAt x) now); [reflexivity|lia].
      * rewrite lookup_delete_ne, lookup_insert_ne by congruence. apply IHacc.
    + rewrite map_filter_insert_True by exact Hexp.
      rewrite map_size_insert_None; [congruence|].
      apply map_lookup_filter_None. left. exact Hnone.
    + intros k. destruct (decide (k = i)) as [->|Hne].
      * rewrite lookup_insert_eq.
        destruct (Z.ltb_spec (expiresAt x) now); [lia|].
        rewrite IHacc, Hnone. reflexivity.
      * rewrite lookup_insert_ne by congruence. apply IHacc.
    + rewrite map_filter_insert_False by (unfold expired; cbn; lia).
      rewrite delete_id by exact Hnone. exact IHn.
Qed.

(** What [cleanup] leaves and what it counts. *)
Lemma cleanup_result (c : IdempotencyCache) (now : Z) :
  (forall k, cache (snd (cleanup c now)) !! k
             = match cache c !! k with
               | Some entry => if expiresAt entry <? now then None else Some entry
               | None => None
               end)
  /\ fst (cleanup c now) = size (filter (expired now) (cache c)).
Proof.
  unfold cleanup. cbn [fst snd cache ttl].
  destruct (cleanup_fold now (cache c) (cache c)) as [Hacc Hn].
  split; [|exact Hn].
  intros k. rewrite Hacc. destruct (cache c !! k) as [entry|] eqn:Hk; [|reflexivity].
  destruct (expiresAt entry <? now); reflexivity.
Qed.

(** X5. [cleanup] removes exactly the expired entries: afterwards a key
    holds what it held if that entry has not expired, and nothing
    otherwise; the number returned is the number of expired entries; and
    the time-to-live is kept. *)
Theorem cleanup_removes_expired :
  forall (c : IdempotencyCache) (now : Z),
    let r := cleanup c now in
    (forall k, cache (snd r) !! k
               = match cache c !! k with
                 | Some entry => if expiresAt entry <? now then None else Some entry
                 | None => None
                 end)
    /\ fst r = size (filter (expired now) (cache c))
    /\ ttl (snd r) = ttl c.
Proof.
  intros c now r. subst r.
  destruct (cleanup_result c now) as [Hlook Hn].
  split; [exact Hlook|]. split; [exact Hn | reflexivity].
Qed.

(** X6. After [cleanup] every key that is left is live: [has] is true for
    it and keeps the cache as it is; and a second [cleanup] at the same
    time removes nothing. *)
Theorem cleanup_leaves_live :
  forall (c : IdempotencyCache) (now : Z) (k : string),
    let c1 := snd (cleanup c now) in
    (is_Some (cache c1 !! k) -> has c1 k now = (true, c1))
    /\ fst (cleanup c1 now) = O
    /\ cache (snd (cleanup c1 now)) = cache c1.
Proof.
  intros c now k c1.
  destruct (cleanup_result c now) as (Hlook & _).
  fold c1 in Hlook.
  assert (forall k' e, cache c1 !! k' = Some e -> (expiresAt e <? now) = false)
    as Hlive.
  { intros k' e He. rewrite Hlook in He.
    destruct (cache c !! k') as [e'|]; [|discriminate He].
    destruct (expiresAt e' <? now) eqn:Hexp; [discriminate He|].
    congruence. }
  split; [|split].
  - intros [e He]. unfold has. rewrite He, (Hlive k e He). reflexivity.
  - destruct (cleanup_result c1 now) as (_ & Hn). rewrite Hn.
    apply map_size_empty_iff, map_empty. intros k'.
    apply map_lookup_filter_None.
    destruct (cache c1 !! k') as [e|] eqn:He; [right|left; reflexivity].
    intros x Hx. injection Hx as <-. unfold expired. cbn.
    pose proof (Hlive k' e He) as H. apply Z.ltb_ge in H. lia.
  - apply map_eq. intros k'.
    destruct (cleanup_result c1 now) as (Hlook1 & _).
    rewrite Hlook1. destruct (cache c1 !! k') as [e|] eqn:He; [|reflexivity].
    rewrite (Hlive k' e He). reflexivity.
Qed.

End CacheMore.


(** ** More on error normalization *)

Section NormalizationMore.
Import Js Acp ErrorHandler AcpHeaders ErrorReplies FalClient Scenario.

Lemma createACPError_type (type code : string) (message param : JsValue)
    (requestId : option string) :
  js_get (createACPError type code message param requestId) "type" = JStr type.
Proof. apply (createACPError_fields type code message param requestId). Qed.

Lemma createACPError_code (type code : string) (message param : JsValue)
    (requestId : option string) :
  js_get (createACPError type code message param requestId) "code" = JStr code.
Proof. apply (createACPError_fields type code message param requestId). Qed.

(** Closes a goal about the [type] and [code] of a [createACPError]. *)
Local Ltac closed_type :=
  eexists; eexists; split; [apply createACPError_type|];
  split; [apply createACPError_code|]; cbn; tauto.

(** X7. Whatever is not already in the shape of an error comes out with a
    [type] among the five categories and a string [code]. *)
Theorem formatACPError_type_closed :
  forall (x : JsValue) (rid ctx : option string),
    isACPError x = false ->
    exists (t c : string),
      js_get (formatACPError x rid ctx) "type" = JStr t
      /\ js_get (formatACPError x rid ctx) "code" = JStr c
      /\ In t ACPErrorTypes.
Proof.
  intros x rid ctx Hacp. unfold formatACPError. rewrite Hacp.
  destruct (instanceof_Error x).
  { unfold handleStandardError. split_ifs; closed_type. }
  destruct (is_object x); [|closed_type].
  unfold handleObjectError.
  destruct (truthy (status_of x)).
  { unfold handleHTTPError. split_ifs; closed_type. }
  destruct (truthy (js_get x "error_type")).
  { unfold handleFalError. split_ifs; closed_type. }
  split_ifs; closed_type.
Qed.

Lemma formatACPError_type_closed_witness :
  exists (t c : string),
    js_get (formatACPError (JStr "String error message") (Some "req-123") None) "type"
    = JStr t
    /\ js_get (formatACPError (JStr "String error message") (Some "req-123") None)
         "code" = JStr c
    /\ In t ACPErrorTypes.
Proof.
  apply (formatACPError_type_closed (JStr "String error message") (Some "req-123") None).
  reflexivity.
Defined.

Lemma createACPError_request_id (type code : string) (message param : JsValue)
    (requestId : option string) :
  let e := createACPError type code message param requestId in
  (given requestId = true -> option_map JStr requestId = Some (js_get e "request_id"))
  /\ (given requestId = false -> js_in "request_id" e = false).
Proof.
  unfold createACPError.
  destruct (truthy param); destruct requestId as [r|];
    try destruct (given (Some r)) eqn:Hg; cbn; split; intros H;
    try discriminate H; try reflexivity.
Qed.

(** X8. The request id passed to [formatACPError] is stamped on every
    error it builds, when it is a non-empty string; when none is passed
    (or an empty one) the error has no [request_id] property. *)
Theorem formatACPError_request_id :
  forall (x : JsValue) (rid ctx : option string),
    isACPError x = false ->
    (given rid = true ->
     option_map JStr rid = Some (js_get (formatACPError x rid ctx) "request_id"))
    /\ (given rid = false -> js_in "request_id" (formatACPError x rid ctx) = false).
Proof.
  intros x rid ctx Hacp. unfold formatACPError. rewrite Hacp.
  destruct (instanceof_Error x).
  { unfold handleStandardError. split_ifs; apply createACPError_request_id. }
  destruct (is_object x); [|apply createACPError_request_id].
  unfold handleObjectError.
  destruct (truthy (status_of x)).
  { unfold handleHTTPError. split_ifs; apply createACPError_request_id. }
  destruct (truthy (js_get x "error_type")).
  { unfold handleFalError. split_ifs; apply createACPError_request_id. }
  split_ifs; apply createACPError_request_id.
Qed.

Lemma formatACPError_request_id_witness :
  option_map JStr (Some "req-123")
  = Some (js_get (formatACPError unavailable (Some "req-123") (Some "Generation failed"))
            "request_id").
Proof.
  refine (proj1 (formatACPError_request_id unavailable (Some "req-123")
                   (Some "Generation failed") _) _); reflexivity.
Defined.

(** X9. For a failure that is an object (no instance of [Error], not yet
    formatted) with status 401, 403, 429 or at least 500, the formatted
    error depends on the status and the request id alone: nothing of the
    failure's message, [param] or other fields, nor of the context, gets
    into it. *)
Theorem formatACPError_fixed_message :
  forall (e : JsValue) (s : Z) (rid ctx : option string),
    status_of e = JNum s ->
    s = 401 \/ s = 403 \/ s = 429 \/ 500 <= s ->
    instanceof_Error e = false -> isACPError e = false ->
    formatACPError e rid ctx = fixed_reply s rid.
Proof.
  intros e s rid ctx Hs Hrange Hinst Hacp. unfold formatACPError.
  rewrite Hacp, Hinst.
  assert (is_object e = true) as ->.
  { destruct e; try discriminate Hs; reflexivity. }
  unfold handleObjectError. rewrite Hs. cbn [truthy].
  replace (s =? 0) with false by (symmetry; apply Z.eqb_neq; lia).
  cbn [negb]. unfold handleHTTPError, fixed_reply, is_num, num_ge. cbn [to_number].
  destruct Hrange as [->|[->|[->|Hlo]]]; try reflexivity.
  repeat match goal with
         | |- context [s =? ?n] =>
             replace (s =? n) with false by (symmetry; apply Z.eqb_neq; lia)
         end.
  replace (500 <=? s) with true by (symmetry; apply Z.leb_le; lia).
  reflexivity.
Qed.

Lemma formatACPError_fixed_message_witness :
  formatACPError
    (JObj Plain [("status", JNum 401); ("message", JStr "bad key sk-123");
                 ("param", JStr "$.key")])
    (Some "req-123") (Some "Generation failed")
  = fixed_reply 401 (Some "req-123").
Proof.
  apply (formatACPError_fixed_message _ 401); [reflexivity | lia | reflexivity..].
Defined.

(** X10. A failure object with a status from 400 to 499, which
    [isClientError] refuses to retry, is formatted as one of the three
    caller-side categories: [request_not_idempotent] for 409,
    [rate_limit_exceeded] for 429, [invalid_request] for every other. *)
Theorem formatACPError_client_status :
  forall (e : JsValue) (s : Z) (rid ctx : option string),
    status_of e = JNum s ->
    400 <= s < 500 ->
    instanceof_Error e = false -> isACPError e = false ->
    isClientError e = true
    /\ js_get (formatACPError e rid ctx) "type"
       = JStr (if s =? 409 then "request_not_idempotent"
               else if s =? 429 then "rate_limit_exceeded"
               else "invalid_request").
Proof.
  intros e s rid ctx Hs Hrange Hinst Hacp.
  split; [exact (isClientError_4xx e s Hs Hrange)|].
  unfold formatACPError. rewrite Hacp, Hinst.
  assert (is_object e = true) as ->.
  { destruct e; try discriminate Hs; reflexivity. }
  unfold handleObjectError. rewrite Hs. cbn [truthy].
  replace (s =? 0) with false by (symmetry; apply Z.eqb_neq; lia).
  cbn [negb]. unfold handleHTTPError, is_num, num_ge, num_lt. cbn [to_number].
  replace (500 <=? s) with false by (symmetry; apply Z.leb_gt; lia).
  replace (400 <=? s) with true by (symmetry; apply Z.leb_le; lia).
  replace (s <? 500) with true by (symmetry; apply Z.ltb_lt; lia).
  repeat match goal with
         | |- context [s =? ?n] => destruct (Z.eqb_spec s n)
         end; cbn [andb]; first [apply createACPError_type | lia].
Qed.

Lemma formatACPError_client_status_witness :
  js_get (formatACPError (JObj Plain [("status", JNum 418)]) None None) "type"
  = JStr "invalid_request".
Proof.
  refine (proj2 (formatACPError_client_status (JObj Plain [("status", JNum 418)])
                   418 None None _ _ _ _)); [reflexivity | lia | reflexivity..].
Defined.

(** X11. An instance of [Error] is classified by its name and message
    alone: the properties set on it ([status], [code], [error_type], ...)
    change nothing, as long as they do not make it pass for a formatted
    error or replace its name or message. *)
Theorem formatACPError_error_instance :
  forall (name message : string) (ps : Props) (rid ctx : option string),
    assoc "name" ps = None -> assoc "message" ps = None ->
    isACPError (JObj (ErrorInst name message) ps) = false ->
    formatACPError (JObj (ErrorInst name message) ps) rid ctx
    = formatACPError (JObj (ErrorInst name message) []) rid ctx.
Proof.
  intros name message ps rid ctx Hname Hmsg Hacp.
  unfold formatACPError. rewrite Hacp.
  assert (isACPError (JObj (ErrorInst name message) []) = false) as -> by reflexivity.
  cbn [instanceof_Error]. unfold handleStandardError, js_get.
  rewrite Hname, Hmsg. reflexivity.
Qed.

Lemma formatACPError_error_instance_witness :
  formatACPError server_exception (Some "req-1") None
  = formatACPError (JObj (ErrorInst "Error" "Internal Server Error") [])
      (Some "req-1") None.
Proof.
  apply formatACPError_error_instance; reflexivity.
Defined.

(** X12. The status table and the formatter agree in four cases out of
    five: an object carrying the status [ACP_ERROR_STATUS_CODES] gives for
    a category is formatted back into that category, except for
    [processing_error], whose status 500 comes back as
    [service_unavailable]. *)
Theorem status_codes_roundtrip :
  forall (t : string) (s : JsValue) (rid ctx : option string),
    assoc t ACP_ERROR_STATUS_CODES = Some s ->
    js_get (formatACPError (JObj Plain [("status", s)]) rid ctx) "type"
    = JStr (if String.eqb t "processing_error" then "service_unavailable" else t).
Proof.
  intros t s rid ctx Hs. unfold ACP_ERROR_STATUS_CODES in Hs. cbn [assoc] in Hs.
  repeat match type of Hs with
         | (if String.eqb t ?c then _ else _) = _ =>
             destruct (String.eqb_spec t c) as [->|_];
             [injection Hs as <-; cbn [String.eqb Ascii.eqb Bool.eqb];
              apply createACPError_type|]
         end.
  discriminate Hs.
Qed.

Lemma status_codes_roundtrip_witness :
  js_get (formatACPError (JObj Plain [("status", JNum 500)]) None None) "type"
  = JStr "service_unavailable".
Proof.
  apply (status_codes_roundtrip "processing_error" (JNum 500) None None).
  reflexivity.
Defined.

End NormalizationMore.


(** ** More on [callWithRetry] *)

Section RetryMore.
Import Js Acp ErrorHandler FalClient Scenario.

(** The loop makes at most one call per attempt left. *)
Lemma retry_loop_call_bound (results : nat -> Completion JsValue JsValue)
    (modelSlug : string) (input : Props) (maxRetries initialDelay : Z)
    (attempts : list Z) :
  forall (lastError : JsValue) (w : FalClientService),
    (count_calls (events (snd (retry_loop (upstream results modelSlug input)
                                 maxRetries initialDelay attempts lastError w)))
     <= count_calls (events w) + length attempts)%nat.
Proof.
  induction attempts as [|attempt rest IH]; intros lastError w.
  - cbn. lia.
  - rewrite retry_loop_cons. unfold upstream at 1.
    assert (count_calls (events (log (EvCall modelSlug input) w))
            = S (count_calls (events w))) as Hcall.
    { cbn [log events]. rewrite count_calls_app. cbn. lia. }
    destruct (results (count_calls (events w))) as [res|error];
      [cbn [snd length]; lia|].
    destruct (isClientError error); [cbn [snd length]; lia|].
    destruct (attempt =? maxRetries); [cbn [snd length]; lia|].
    etransitivity; [apply IH|].
    cbn [sleep log events length]. rewrite !count_calls_app. cbn. lia.
Qed.

(** X13. Whatever the outside answers, [callWithRetry] calls it at most
    [maxRetries + 1] times (not at all when [maxRetries] is negative). *)
Theorem callWithRetry_call_bound :
  forall (results : nat -> Completion JsValue JsValue) (modelSlug : string)
         (input : Props) (maxRetries initialDelay : Z) (w : FalClientService),
    (count_calls (events (snd (callWithRetry (upstream results modelSlug input)
                                 maxRetries initialDelay w)))
     <= count_calls (events w) + Z.to_nat (maxRetries + 1))%nat.
Proof.
  intros results modelSlug input maxRetries initialDelay w. unfold callWithRetry.
  etransitivity; [apply retry_loop_call_bound|].
  unfold attempt_range. rewrite length_map, length_seq. lia.
Qed.

(** The loop over attempts [a ..] when the next [m] calls fail without a
    client error and the one after succeeds, all within the retries
    allowed. *)
Lemma retry_loop_recovers (results : nat -> Completion JsValue JsValue)
    (modelSlug : string) (input : Props) (maxRetries initialDelay : Z)
    (v : JsValue) :
  forall (m a n : nat) (lastError : JsValue) (w : FalClientService),
    (m < n)%nat ->
    Z.of_nat (a + m) <= maxRetries ->
    (forall i, (i < m)%nat ->
       exists e, results (count_calls (events w) + i)%nat = Throw e
                 /\ isClientError e = false) ->
    results (count_calls (events w) + m)%nat = Normal v ->
    let r := retry_loop (upstream results modelSlug input) maxRetries initialDelay
               (map Z.of_nat (seq a n)) lastError w in
    fst r = Normal v
    /\ events (snd r)
       = (events w
          ++ flat_map (fun attempt => [EvCall modelSlug input;
                                       EvSleep (initialDelay * 2 ^ attempt)])
                      (map Z.of_nat (seq a m))
          ++ [EvCall modelSlug input])%list.
Proof.
  induction m as [|m IH]; intros a n lastError w Hlt Hmax Hfail Hok.
  - destruct n as [|n]; [lia|].
    replace (map Z.of_nat (seq a (S n)))
      with (Z.of_nat a :: map Z.of_nat (seq (S a) n)) by reflexivity.
    rewrite retry_loop_cons. unfold upstream at 1.
    rewrite Nat.add_0_r in Hok. rewrite Hok. cbn. split; reflexivity.
  - destruct n as [|n]; [lia|].
    replace (map Z.of_nat (seq a (S n)))
      with (Z.of_nat a :: map Z.of_nat (seq (S a) n)) by reflexivity.
    rewrite retry_loop_cons. unfold upstream at 1.
    destruct (Hfail O) as (e & He & Hclient); [lia|].
    rewrite Nat.add_0_r in He. rewrite He, Hclient.
    replace (Z.of_nat a =? maxRetries) with false by (symmetry; apply Z.eqb_neq; lia).
    assert (count_calls
              (events (sleep (initialDelay * 2 ^ Z.of_nat a)
                         (log (EvCall modelSlug input) w)))
            = S (count_calls (events w))) as Hcount.
    { cbn [sleep log events]. rewrite !count_calls_app. cbn. lia. }
    specialize (IH (S a) n
      (if instanceof_Error e then e else JObj (ErrorInst "Error" "Unknown error") [])
      (sleep (initialDelay * 2 ^ Z.of_nat a) (log (EvCall modelSlug input) w))).
    destruct IH as [IHr IHev].
    + lia.
    + lia.
    + intros i Hi. rewrite Hcount.
      replace (S (count_calls (events w)) + i)%nat
        with (count_calls (events w) + S i)%nat by lia.
      apply Hfail. lia.
    + rewrite Hcount.
      replace (S (count_calls (events w)) + m)%nat
        with (count_calls (events w) + S m)%nat by lia.
      exact Hok.
    + split; [exact IHr|]. rewrite IHev. cbn [sleep log events seq map flat_map].
      rewrite <- !app_assoc. reflexivity.
Qed.

(** X14. A call that fails [m] times without a client error and then
    succeeds, with [m] no more than [maxRetries], is retried through:
    [callWithRetry] returns the result after [m + 1] calls, having slept
    [initialDelay * 2 ^ attempt] after each of the failures. *)
Theorem callWithRetry_recovers :
  forall (results : nat -> Completion JsValue JsValue) (modelSlug : string)
         (input : Props) (maxRetries initialDelay : Z) (w : FalClientService)
         (m : nat) (v : JsValue),
    Z.of_nat m <= maxRetries ->
    (forall i, (i < m)%nat ->
       exists e, results (count_calls (events w) + i)%nat = Throw e
                 /\ isClientError e = false) ->
    results (count_calls (events w) + m)%nat = Normal v ->
    let r := callWithRetry (upstream results modelSlug input)
               maxRetries initialDelay w in
    fst r = Normal v
    /\ events (snd r)
       = (events w
          ++ flat_map (fun attempt => [EvCall modelSlug input;
                                       EvSleep (initialDelay * 2 ^ attempt)])
                      (map Z.of_nat (seq 0 m))
          ++ [EvCall modelSlug input])%list.
Proof.
  intros results modelSlug input maxRetries initialDelay w m v Hm Hfail Hok.
  unfold callWithRetry, attempt_range.
  apply (retry_loop_recovers results modelSlug input maxRetries initialDelay v);
    [lia | lia | exact Hfail | exact Hok].
Qed.

Lemma callWithRetry_recovers_witness :
  fst (callWithRetry
         (upstream (fun n => if (n <? 2)%nat then Throw unavailable
                             else Normal (JStr "done"))
                   "fal-ai/flux-pro" prompt_x)
         4 2000 default_service)
  = Normal (JStr "done").
Proof.
  refine (proj1 (callWithRetry_recovers
                   (fun n => if (n <? 2)%nat then Throw unavailable
                             else Normal (JStr "done"))
                   "fal-ai/flux-pro" prompt_x 4 2000 default_service 2
                   (JStr "done") _ _ _)).
  - lia.
  - intros i Hi. exists unavailable.
    destruct i as [|[|i]]; [split; reflexivity | split; reflexivity | lia].
  - reflexivity.
Defined.

(** X15. With a negative [maxRetries] (as [MAX_RETRIES=-1] in the
    environment gives) the operation is never run: [callWithRetry] throws
    [undefined] and leaves everything as it was. *)
Theorem callWithRetry_negative_retries :
  forall (fn : Operation) (maxRetries initialDelay : Z) (w : FalClientService),
    maxRetries < 0 ->
    callWithRetry fn maxRetries initialDelay w = (Throw JUndefined, w).
Proof.
  intros fn maxRetries initialDelay w Hneg. unfold callWithRetry, attempt_range.
  replace (Z.to_nat (maxRetries + 1)) with O by lia. reflexivity.
Qed.

Lemma callWithRetry_negative_retries_witness :
  callWithRetry (upstream (fun _ => Normal (JStr "done")) "fal-ai/flux-pro" prompt_x)
    (-1) 2000 default_service
  = (Throw JUndefined, default_service).
Proof.
  apply callWithRetry_negative_retries. lia.
Defined.

(** A delay a timer takes as it is. *)
Lemma timer_delay_in_range (ms : Z) :
  1 <= ms <= TIMEOUT_MAX -> timer_delay ms = ms.
Proof.
  intros [Hlo Hhi]. unfold timer_delay.
  destruct (Z.leb_spec 1 ms); [|lia].
  destruct (Z.leb_spec ms TIMEOUT_MAX); [reflexivity | lia].
Qed.

(** The clock after the loop over attempts [a .. a + m] has failed
    throughout, when the longest delay fits a timer. *)
Lemma retry_loop_all_fail_clock (results : nat -> Completion JsValue JsValue)
    (errs : nat -> JsValue) (modelSlug : string)
    (input : Props) (maxRetries initialDelay : Z) :
  1 <= initialDelay ->
  initialDelay * 2 ^ (maxRetries - 1) <= TIMEOUT_MAX ->
  (forall n, results n = Throw (errs n)) ->
  (forall n, isClientError (errs n) = false) ->
  forall (m a : nat) (lastError : JsValue) (w : FalClientService),
    Z.of_nat (a + m) = maxRetries ->
    clock (snd (retry_loop (upstream results modelSlug input) maxRetries
                  initialDelay (map Z.of_nat (seq a (S m))) lastError w))
    = clock w + initialDelay * (2 ^ Z.of_nat (a + m) - 2 ^ Z.of_nat a).
Proof.
  intros Hdelay Hfits Hres Hserver m.
  induction m as [|m IH]; intros a lastError w Hlast.
  - cbn [seq map retry_loop upstream]. rewrite Hres, Hserver.
    replace (Z.of_nat a =? maxRetries) with true by (symmetry; apply Z.eqb_eq; lia).
    cbn [snd log clock]. rewrite Nat.add_0_r. lia.
  - replace (map Z.of_nat (seq a (S (S m))))
      with (Z.of_nat a :: map Z.of_nat (seq (S a) (S m))) by reflexivity.
    rewrite retry_loop_cons. unfold upstream at 1. rewrite Hres, Hserver.
    replace (Z.of_nat a =? maxRetries) with false by (symmetry; apply Z.eqb_neq; lia).
    rewrite IH by lia. cbn [sleep log clock].
    assert (1 <= 2 ^ Z.of_nat a) as Hone.
    { pose proof (Z.pow_pos_nonneg 2 (Z.of_nat a)). lia. }
    assert (2 ^ Z.of_nat a <= 2 ^ (maxRetries - 1)) as Hle
      by (apply Z.pow_le_mono_r; lia).
    rewrite timer_delay_in_range by nia.
    replace (Z.of_nat (S a)) with (Z.of_nat a + 1) by lia.
    rewrite Z.pow_add_r by lia.
    replace (S a + m)%nat with (a + S m)%nat by lia. lia.
Qed.

(** X16. The time spent backing off follows from the policy: when every
    attempt fails and the longest delay, [initialDelay * 2 ^ (maxRetries -
    1)], is one a timer takes (from 1 to [2^31 - 1] milliseconds),
    [callWithRetry] has slept [initialDelay * (2 ^ maxRetries - 1)]
    milliseconds in all (30 seconds with the defaults 4 and 2000). *)
Theorem callWithRetry_total_backoff :
  forall (results : nat -> Completion JsValue JsValue) (errs : nat -> JsValue)
         (modelSlug : string) (input : Props) (maxRetries initialDelay : Z)
         (w : FalClientService),
    0 <= maxRetries ->
    1 <= initialDelay ->
    initialDelay * 2 ^ (maxRetries - 1) <= TIMEOUT_MAX ->
    (forall n, results n = Throw (errs n)) ->
    (forall n, isClientError (errs n) = false) ->
    clock (snd (callWithRetry (upstream results modelSlug input)
                  maxRetries initialDelay w))
    = clock w + initialDelay * (2 ^ maxRetries - 1).
Proof.
  intros results errs modelSlug input maxRetries initialDelay w
         Hpos Hdelay Hfits Hres Hserver.
  unfold callWithRetry. rewrite attempt_range_cons by exact Hpos.
  rewrite (retry_loop_all_fail_clock results errs modelSlug input maxRetries
             initialDelay Hdelay Hfits Hres Hserver (Z.to_nat maxRetries) O) by lia.
  cbn [Nat.add]. rewrite Z2Nat.id by exact Hpos. reflexivity.
Qed.

Lemma callWithRetry_total_backoff_witness :
  clock (snd (callWithRetry
                (upstream (fun _ => Throw unavailable) "fal-ai/flux-pro" prompt_x)
                4 2000 default_service))
  = clock default_service + 2000 * (2 ^ 4 - 1).
Proof.
  apply (callWithRetry_total_backoff (fun _ => Throw unavailable)
           (fun _ => unavailable));
    [lia | lia | vm_compute; discriminate | reflexivity | reflexivity].
Defined.

End RetryMore.


(** ** More on [generate] *)

Section GenerateMore.
Import Js Acp ErrorHandler FalClient Generator ClientNotions Scenario.

Lemma get_hit (c : Cache.IdempotencyCache) (k : string) (parameters : Props)
    (now : Z) (entry : Cache.IdempotencyEntry) :
  Cache.cache c !! k = Some entry ->
  now <= Cache.expiresAt entry ->
  Cache.paramsHash entry = Cache.hashParameters parameters ->
  Cache.get c k parameters now = (Normal (Some entry), c).
Proof.
  intros Hlookup Hlive Hdigest. unfold Cache.get. rewrite Hlookup.
  destruct (Z.ltb_spec (Cache.expiresAt entry) now) as [Hexp|_]; [lia|].
  rewrite Hdigest, String.eqb_refl. reflexivity.
Qed.

(** [get] throws nothing but the conflict, and never adds an entry. *)
Lemma get_throws_conflict (c : Cache.IdempotencyCache) (k : string)
    (parameters : Props) (now : Z) (e : JsValue) :
  fst (Cache.get c k parameters now) = Throw e ->
  e = conflict /\ snd (Cache.get c k parameters now) = c.
Proof.
  unfold Cache.get. destruct (Cache.cache c !! k) as [entry|]; [|discriminate].
  destruct (Cache.expiresAt entry <? now); [discriminate|].
  destruct (negb (String.eqb (Cache.paramsHash entry)
                    (Cache.hashParameters parameters))); [|discriminate].
  cbn. intros H. injection H as <-. split; reflexivity.
Qed.

Lemma get_cache_subset (c : Cache.IdempotencyCache) (k : string)
    (parameters : Props) (now : Z) (k' : string) (x : Cache.IdempotencyEntry) :
  Cache.cache (snd (Cache.get c k parameters now)) !! k' = Some x ->
  Cache.cache c !! k' = Some x.
Proof.
  unfold Cache.get. destruct (Cache.cache c !! k) as [entry|]; [|exact id].
  destruct (Cache.expiresAt entry <? now).
  - cbn [snd Cache.cache]. intros H. apply lookup_delete_Some in H. apply H.
  - destruct (negb _); exact id.
Qed.

(** The retry loop does not touch the idempotency cache. *)
Lemma retry_loop_cache (results : nat -> Completion JsValue JsValue)
    (modelSlug : string) (input : Props) (maxRetries initialDelay : Z)
    (attempts : list Z) :
  forall (lastError : JsValue) (w : FalClientService),
    cache (snd (retry_loop (upstream results modelSlug input) maxRetries
                  initialDelay attempts lastError w)) = cache w.
Proof.
  induction attempts as [|attempt rest IH]; intros lastError w; [reflexivity|].
  rewrite retry_loop_cons. unfold upstream at 1.
  destruct (results (count_calls (events w))) as [res|error]; [reflexivity|].
  destruct (isClientError error); [reflexivity|].
  destruct (attempt =? maxRetries); [reflexivity|].
  rewrite IH. reflexivity.
Qed.

(** A failed upstream call leaves the cache as it was, and what is thrown
    is formatted. *)
Lemma call_and_store_throw (env : Env) (modelSlug : string) (parameters : Props)
    (options : ACPRequestOptions) (rid ikey : string) (w : FalClientService)
    (e : JsValue) :
  fst (call_and_store env modelSlug parameters options rid ikey w) = Throw e ->
  isACPError e = true
  /\ cache (snd (call_and_store env modelSlug parameters options rid ikey w))
     = cache w.
Proof.
  unfold call_and_store, callWithRetry, subscribe_op.
  pose proof (retry_loop_cache (fun n => subscribe env n modelSlug parameters)
                modelSlug parameters (MAX_RETRIES w) (INITIAL_RETRY_DELAY w)
                (attempt_range (MAX_RETRIES w)) JUndefined w) as Hcache.
  destruct (retry_loop _ _ _ _ _ w) as [[result|error] w1]; cbn [fst snd] in *;
    [discriminate|].
  intros H. injection H as <-. split; [apply isACPError_formatACPError | exact Hcache].
Qed.

(** A call that succeeds at once. *)
Lemma callWithRetry_first_success (results : nat -> Completion JsValue JsValue)
    (modelSlug : string) (input : Props) (maxRetries initialDelay : Z)
    (w : FalClientService) (v : JsValue) :
  0 <= maxRetries ->
  results (count_calls (events w)) = Normal v ->
  callWithRetry (upstream results modelSlug input) maxRetries initialDelay w
  = (Normal v, log (EvCall modelSlug input) w).
Proof.
  intros Hpos Hok. unfold callWithRetry. rewrite attempt_range_cons by exact Hpos.
  cbn [seq map]. rewrite retry_loop_cons. unfold upstream. rewrite Hok. reflexivity.
Qed.

Lemma get_ttl (c : Cache.IdempotencyCache) (k : string) (parameters : Props)
    (now : Z) :
  Cache.ttl (snd (Cache.get c k parameters now)) = Cache.ttl c.
Proof.
  unfold Cache.get. destruct (Cache.cache c !! k) as [entry|]; [|reflexivity].
  destruct (Cache.expiresAt entry <? now); [reflexivity|].
  destruct (negb _); reflexivity.
Qed.

(** A keyed request that finds nothing in the cache and whose first
    upstream call succeeds: the response is built from the result and
    stored under the key for the time-to-live. *)
Lemma generate_miss_success (env : Env) (modelSlug : string) (parameters : Props)
    (options : ACPRequestOptions) (w : FalClientService) (k : string)
    (v : JsValue) :
  keyed options k ->
  0 <= MAX_RETRIES w ->
  lookup_misses options parameters w ->
  subscribe env (count_calls (events w)) modelSlug parameters = Normal v ->
  let r := generate env modelSlug parameters options w in
  let resp := fresh_response env v modelSlug
                (fst (or_uuid env (requestId options) w)) k (clock w) in
  fst r = Normal resp
  /\ Cache.cache (cache (snd r)) !! k
     = Some {| Cache.key := k;
               Cache.paramsHash := Cache.hashParameters parameters;
               Cache.response := resp;
               Cache.expiresAt := clock w + Cache.ttl (cache w) |}
  /\ clock (snd r) = clock w
  /\ events (snd r)
     = (events w ++ [EvCacheGet k; EvCall modelSlug parameters; EvCacheSet k])%list.
Proof.
  intros [Hk Hg] Hpos Hmiss Hok r resp. subst r resp. unfold generate.
  specialize (Hmiss k Hk Hg).
  pose proof (or_uuid_frame env (requestId options) w) as F1.
  destruct (or_uuid env (requestId options) w) as [rid w1].
  pose proof (or_uuid_frame env (idempotencyKey options) w1) as F2.
  assert (fst (or_uuid env (idempotencyKey options) w1) = k) as Hikey.
  { unfold or_uuid. rewrite Hk, Hg. reflexivity. }
  destruct (or_uuid env (idempotencyKey options) w1) as [ikey w2].
  cbn [fst snd] in F1, F2, Hikey |- *. subst ikey.
  destruct F1 as (Fe1 & Fc1 & Fk1 & Fm1 & Fd1).
  destruct F2 as (Fe2 & Fc2 & Fk2 & Fm2 & Fd2).
  rewrite Fe1 in Fe2. rewrite Fc1 in Fc2. rewrite Fk1 in Fk2. rewrite Fm1 in Fm2.
  rewrite Hk, Hg, Fc2, Fk2.
  pose proof (get_ttl (cache w) k parameters (clock w)) as Httl.
  destruct (Cache.get (cache w) k parameters (clock w)) as [res c'].
  cbn [fst snd] in Hmiss, Httl. subst res.
  unfold call_and_store, subscribe_op.
  rewrite (callWithRetry_first_success _ modelSlug parameters _ _ _ v).
  - rewrite Hk, Hg.
    cbn [fst snd with_cache log events cache clock MAX_RETRIES].
    unfold Cache.set. cbn [Cache.cache Cache.ttl].
    rewrite Fe2, Fk2, Httl. repeat split.
    + apply lookup_insert_eq.
    + rewrite <- !app_assoc. reflexivity.
  - cbn [with_cache log MAX_RETRIES]. rewrite Fm2. exact Hpos.
  - cbn [with_cache log events]. rewrite Fe2, count_calls_app.
    cbn [count_calls]. rewrite Nat.add_0_r. exact Hok.
Qed.

(** A keyed request whose key has a live entry stored with the same
    parameters. *)
Lemma generate_hit (env : Env) (modelSlug : string) (parameters : Props)
    (options : ACPRequestOptions) (w : FalClientService) (k : string)
    (entry : Cache.IdempotencyEntry) :
  keyed options k ->
  Cache.cache (cache w) !! k = Some entry ->
  clock w <= Cache.expiresAt entry ->
  Cache.paramsHash entry = Cache.hashParameters parameters ->
  nullish (Cache.response entry) = false ->
  let r := generate env modelSlug parameters options w in
  fst r = Normal (cached_result (Cache.response entry)
                    (fst (or_uuid env (requestId options) w)))
  /\ events (snd r) = (events w ++ [EvCacheGet k])%list
  /\ cache (snd r) = cache w.
Proof.
  intros [Hk Hg] Hlookup Hlive Hdigest Hresp r.
  subst r. unfold generate.
  pose proof (or_uuid_frame env (requestId options) w) as F1.
  destruct (or_uuid env (requestId options) w) as [rid w1].
  pose proof (or_uuid_frame env (idempotencyKey options) w1) as F2.
  destruct (or_uuid env (idempotencyKey options) w1) as [ikey w2].
  cbn [fst snd] in F1, F2 |- *.
  destruct F1 as (Fe1 & Fc1 & Fk1 & _). destruct F2 as (Fe2 & Fc2 & Fk2 & _).
  rewrite Hk, Hg, Fc2, Fc1, Fk2, Fk1.
  rewrite (get_hit (cache w) k parameters (clock w) entry Hlookup Hlive Hdigest).
  destruct (Cache.response entry); try discriminate Hresp;
    cbn [fst snd with_cache log events cache]; rewrite Fe2, Fe1;
    repeat split; reflexivity.
Qed.

(** X17. A request whose idempotency key has a live entry stored with
    the same parameters is answered from the cache. What [generate]
    returns has every field of the stored response but [metadata]; its
    [metadata] has [cached] set to [true], the request id of this request
    (the one passed, or else a new UUID) as [request_id], and the other
    fields of the stored [metadata]. Nothing is called upstream and the
    cache is left as it is. *)
Theorem generate_cache_hit :
  forall (env : Env) (modelSlug : string) (parameters : Props)
         (options : ACPRequestOptions) (w : FalClientService) (k : string)
         (entry : Cache.IdempotencyEntry) (stored : Props),
    keyed options k ->
    Cache.cache (cache w) !! k = Some entry ->
    clock w <= Cache.expiresAt entry ->
    Cache.paramsHash entry = Cache.hashParameters parameters ->
    Cache.response entry = JObj Plain stored ->
    let r := generate env modelSlug parameters options w in
    let rid := match requestId options with
               | Some id => if given (Some id) then id else randomUUID env (uuids w)
               | None => randomUUID env (uuids w)
               end in
    exists result,
      fst r = Normal result
      /\ (forall f, f <> "metadata" ->
                    js_get result f = js_get (JObj Plain stored) f)
      /\ js_get (js_get result "metadata") "cached" = JBool true
      /\ js_get (js_get result "metadata") "request_id" = JStr rid
      /\ (forall md f,
             js_get (JObj Plain stored) "metadata" = JObj Plain md ->
             f <> "cached" -> f <> "request_id" ->
             js_get (js_get result "metadata") f = js_get (JObj Plain md) f)
      /\ events (snd r) = (events w ++ [EvCacheGet k])%list
      /\ count_calls (events (snd r)) = count_calls (events w)
      /\ cache (snd r) = cache w.
Proof.
  intros env modelSlug parameters options w k entry stored Hkey Hlookup Hlive
         Hdigest Hstored r rid.
  destruct (generate_hit env modelSlug parameters options w k entry
              Hkey Hlookup Hlive Hdigest) as (Hr & Hev & Hc);
    [rewrite Hstored; reflexivity|].
  fold r in Hr, Hev, Hc. rewrite Hstored in Hr.
  assert (fst (or_uuid env (requestId options) w) = rid) as Hrid.
  { subst rid. unfold or_uuid.
    destruct (requestId options) as [id|]; [destruct (given (Some id))|];
      reflexivity. }
  rewrite Hrid in Hr.
  exists (cached_result (JObj Plain stored) rid).
  split; [exact Hr|].
  unfold cached_result, extend. cbn [spread fold_left fst snd].
  split; [|split; [|split; [|split; [|split; [|split]]]]].
  - intros f Hf. rewrite js_get_obj_set.
    destruct (String.eqb_spec f "metadata"); [contradiction | reflexivity].
  - rewrite js_get_obj_set, String.eqb_refl.
    rewrite js_get_obj_set. cbn [String.eqb Ascii.eqb Bool.eqb andb].
    rewrite js_get_obj_set. reflexivity.
  - rewrite js_get_obj_set, String.eqb_refl.
    rewrite js_get_obj_set. reflexivity.
  - intros md f Hmd Hcached Hreq. rewrite js_get_obj_set, String.eqb_refl.
    rewrite Hmd. cbn [spread]. rewrite !js_get_obj_set.
    destruct (String.eqb_spec f "request_id"); [contradiction|].
    destruct (String.eqb_spec f "cached"); [contradiction | reflexivity].
  - exact Hev.
  - rewrite Hev, count_calls_app. cbn [count_calls]. apply Nat.add_0_r.
  - exact Hc.
Qed.

Lemma generate_cache_hit_witness :
  exists result,
    fst (generate (failing_env unavailable) "fal-ai/flux-pro"
           [("prompt", JStr "test1")]
           {| idempotencyKey := Some "test-key"; requestId := Some "req-2" |}
           (with_cache stored_test1 default_service))
    = Normal result
    /\ js_get result "data" = JObj Plain [("result", JStr "success")]
    /\ js_get (js_get result "metadata") "cached" = JBool true
    /\ js_get (js_get result "metadata") "request_id" = JStr "req-2".
Proof.
  destruct (generate_cache_hit (failing_env unavailable) "fal-ai/flux-pro"
              [("prompt", JStr "test1")]
              {| idempotencyKey := Some "test-key"; requestId := Some "req-2" |}
              (with_cache stored_test1 default_service)
              "test-key" entry_test1
              [("data", JObj Plain [("result", JStr "success")])])
    as (result & Hr & Hfields & Hcached & Hrid & _).
  - split; reflexivity.
  - vm_compute. reflexivity.
  - vm_compute. discriminate.
  - reflexivity.
  - reflexivity.
  - exists result. split; [exact Hr|]. split; [|split; [exact Hcached | exact Hrid]].
    rewrite Hfields by discriminate. reflexivity.
Defined.

(** X18. A request whose key has a live entry stored with other
    parameters is refused before anything is called: [generate] throws
    the conflict as [get] made it (so without a request id), calls
    nothing upstream and leaves the cache as it is. *)
Theorem generate_conflict :
  forall (env : Env) (modelSlug : string) (parameters : Props)
         (options : ACPRequestOptions) (w : FalClientService) (k : string)
         (entry : Cache.IdempotencyEntry),
    keyed options k ->
    Cache.cache (cache w) !! k = Some entry ->
    clock w <= Cache.expiresAt entry ->
    Cache.paramsHash entry <> Cache.hashParameters parameters ->
    let r := generate env modelSlug parameters options w in
    fst r = Throw conflict
    /\ js_in "request_id" conflict = false
    /\ events (snd r) = (events w ++ [EvCacheGet k])%list
    /\ cache (snd r) = cache w.
Proof.
  intros env modelSlug parameters options w k entry [Hk Hg] Hlookup Hlive Hdigest r.
  subst r. unfold generate.
  pose proof (or_uuid_frame env (requestId options) w) as F1.
  destruct (or_uuid env (requestId options) w) as [rid w1].
  pose proof (or_uuid_frame env (idempotencyKey options) w1) as F2.
  destruct (or_uuid env (idempotencyKey options) w1) as [ikey w2].
  cbn [fst snd] in F1, F2 |- *.
  destruct F1 as (Fe1 & Fc1 & Fk1 & _). destruct F2 as (Fe2 & Fc2 & Fk2 & _).
  rewrite Hk, Hg, Fc2, Fc1, Fk2, Fk1.
  assert (Cache.get (cache w) k parameters (clock w) = (Throw conflict, cache w))
    as ->.
  { unfold Cache.get. rewrite Hlookup.
    destruct (Z.ltb_spec (Cache.expiresAt entry) (clock w)) as [Hexp|_]; [lia|].
    destruct (String.eqb_spec (Cache.paramsHash entry)
                (Cache.hashParameters parameters)) as [Heq|_]; [contradiction|].
    reflexivity. }
  change (truthy conflict && is_object conflict && js_in "type" conflict)
    with true.
  cbn [fst snd with_cache log events cache]. rewrite Fe2, Fe1.
  repeat split; reflexivity.
Qed.

Lemma generate_conflict_witness :
  fst (generate (failing_env unavailable) "fal-ai/flux-pro"
         [("prompt", JStr "test2")]
         {| idempotencyKey := Some "test-key"; requestId := Some "req-2" |}
         (with_cache stored_test1 default_service))
  = Throw conflict.
Proof.
  refine (proj1 (generate_conflict (failing_env unavailable) "fal-ai/flux-pro"
                   [("prompt", JStr "test2")]
                   {| idempotencyKey := Some "test-key"; requestId := Some "req-2" |}
                   (with_cache stored_test1 default_service)
                   "test-key" entry_test1 _ _ _ _)).
  - split; reflexivity.
  - vm_compute. reflexivity.
  - vm_compute. discriminate.
  - vm_compute. discriminate.
Defined.

(** What [generate] throws and what it leaves in the cache then. *)
Lemma generate_throw (env : Env) (modelSlug : string) (parameters : Props)
    (options : ACPRequestOptions) (w : FalClientService) (e : JsValue) :
  fst (generate env modelSlug parameters options w) = Throw e ->
  isACPError e = true
  /\ (forall k x,
         Cache.cache (cache (snd (generate env modelSlug parameters options w))) !! k
         = Some x ->
         Cache.cache (cache w) !! k = Some x).
Proof.
  unfold generate.
  pose proof (or_uuid_frame env (requestId options) w) as F1.
  destruct (or_uuid env (requestId options) w) as [rid w1].
  pose proof (or_uuid_frame env (idempotencyKey options) w1) as F2.
  destruct (or_uuid env (idempotencyKey options) w1) as [ikey w2].
  cbn [fst snd] in F1, F2.
  destruct F1 as (_ & Fc1 & Fk1 & _). destruct F2 as (_ & Fc2 & Fk2 & _).
  rewrite Fc1 in Fc2. rewrite Fk1 in Fk2.
  assert (forall w3,
            (forall k x, Cache.cache (cache w3) !! k = Some x ->
                         Cache.cache (cache w) !! k = Some x) ->
            fst (call_and_store env modelSlug parameters options rid ikey w3)
            = Throw e ->
            isACPError e = true
            /\ (forall k x,
                   Cache.cache
                     (cache (snd (call_and_store env modelSlug parameters options
                                    rid ikey w3))) !! k = Some x ->
                   Cache.cache (cache w) !! k = Some x)) as Hcont.
  { intros w3 Hsub Hthrow.
    destruct (call_and_store_throw env modelSlug parameters options rid ikey w3 e
                Hthrow) as [Hacp Hcache].
    split; [exact Hacp|]. rewrite Hcache. exact Hsub. }
  assert (forall k x, Cache.cache (cache w2) !! k = Some x ->
                      Cache.cache (cache w) !! k = Some x) as Hsame
      by (rewrite Fc2; auto).
  destruct (idempotencyKey options) as [k|]; [|apply Hcont, Hsame].
  destruct (given (Some k)); [|apply Hcont, Hsame].
  rewrite Fc2, Fk2.
  pose proof (get_throws_conflict (cache w) k parameters (clock w)) as Hthrows.
  pose proof (get_cache_subset (cache w) k parameters (clock w)) as Hsub.
  destruct (Cache.get (cache w) k parameters (clock w)) as [[[cached|]|error] c];
    cbn [fst snd] in Hthrows, Hsub.
  - destruct (Cache.response cached);
      try (apply Hcont; cbn [with_cache cache]; exact Hsub);
      cbn [fst]; discriminate.
  - apply Hcont. cbn [with_cache cache]. exact Hsub.
  - destruct (Hthrows error eq_refl) as [-> ->].
    change (truthy conflict && is_object conflict && js_in "type" conflict)
      with true.
    cbn [fst snd with_cache cache]. intros H. injection H as <-.
    split; [reflexivity | auto].
Qed.

(** X19. Failures are never cached: when [generate] throws, every entry
    in the cache afterwards was there before. *)
Theorem generate_failure_not_cached :
  forall (env : Env) (modelSlug : string) (parameters : Props)
         (options : ACPRequestOptions) (w : FalClientService) (e : JsValue)
         (k : string) (x : Cache.IdempotencyEntry),
    fst (generate env modelSlug parameters options w) = Throw e ->
    Cache.cache (cache (snd (generate env modelSlug parameters options w))) !! k
    = Some x ->
    Cache.cache (cache w) !! k = Some x.
Proof.
  intros env modelSlug parameters options w e k x Hthrow.
  apply (generate_throw env modelSlug parameters options w e Hthrow).
Qed.

Lemma generate_failure_not_cached_witness :
  let w := with_cache stored_test1 default_service in
  let r := generate (failing_env unavailable) "fal-ai/flux-pro" prompt_x
             keyed_options w in
  Cache.cache (cache w) !! "test-key" = Some entry_test1
  /\ events (snd r)
     = EvCacheGet "k1"
       :: failed_attempts (EvCall "fal-ai/flux-pro" prompt_x) 4 2000
  /\ Cache.cache (cache (snd r)) !! "k1" = None.
Proof.
  intros w r. split; [|split].
  - refine (generate_failure_not_cached (failing_env unavailable) "fal-ai/flux-pro"
              prompt_x keyed_options w
              (createACPError "service_unavailable" "service_error"
                 (JStr "Service temporarily unavailable") JUndefined (Some "req-1"))
              "test-key" entry_test1 _ _).
    + vm_compute. reflexivity.
    + vm_compute. reflexivity.
  - vm_compute. reflexivity.
  - vm_compute. reflexivity.
Defined.

(** X20. Replay. After a keyed request that missed the cache and whose
    upstream call succeeded, the same request repeated within the
    time-to-live is answered from the cache: same data, [cached] set,
    and no second upstream call. *)
Theorem generate_replay :
  forall (env : Env) (modelSlug : string) (parameters : Props)
         (options : ACPRequestOptions) (w : FalClientService) (k : string)
         (v : JsValue) (dt : Z),
    keyed options k ->
    0 <= MAX_RETRIES w ->
    lookup_misses options parameters w ->
    subscribe env (count_calls (events w)) modelSlug parameters = Normal v ->
    dt <= Cache.ttl (cache w) ->
    let r1 := generate env modelSlug parameters options w in
    let w' := advance dt (snd r1) in
    let r2 := generate env modelSlug parameters options w' in
    let first := fresh_response env v modelSlug
                   (fst (or_uuid env (requestId options) w)) k (clock w) in
    let second := cached_result first (fst (or_uuid env (requestId options) w')) in
    fst r1 = Normal first
    /\ fst r2 = Normal second
    /\ js_get second "data" = v
    /\ js_get (js_get second "metadata") "cached" = JBool true
    /\ count_calls (events (snd r2)) = S (count_calls (events w)).
Proof.
  intros env modelSlug parameters options w k v dt Hkey Hpos Hmiss Hok Hdt
         r1 w' r2 first second.
  destruct (generate_miss_success env modelSlug parameters options w k v
              Hkey Hpos Hmiss Hok) as (Hr1 & Hstored & Hclock & Hev).
  fold r1 first in Hr1, Hstored, Hclock, Hev.
  destruct (generate_hit env modelSlug parameters options w' k _ Hkey
              (Hstored : Cache.cache (cache w') !! k = Some _))
    as (Hr2 & Hev2 & _).
  - subst w'. cbn [advance clock Cache.expiresAt]. rewrite Hclock. lia.
  - reflexivity.
  - reflexivity.
  - fold r2 in Hr2, Hev2. cbn [Cache.response] in Hr2.
    split; [exact Hr1|]. split; [exact Hr2|].
    split; [reflexivity|]. split; [reflexivity|].
    rewrite Hev2. subst w'. cbn [advance events]. rewrite Hev.
    rewrite !count_calls_app. cbn [count_calls]. lia.
Qed.

Lemma generate_replay_witness :
  let r1 := generate (answering_env one_image JNull) "fal-ai/flux-pro" prompt_x
              keyed_options default_service in
  count_calls
    (events (snd (generate (answering_env one_image JNull) "fal-ai/flux-pro"
                    prompt_x keyed_options (advance 60000 (snd r1)))))
  = 1%nat.
Proof.
  refine (proj2 (proj2 (proj2 (proj2
            (generate_replay (answering_env one_image JNull) "fal-ai/flux-pro"
               prompt_x keyed_options default_service "k1" one_image 60000
               _ _ _ _ _))))).
  - split; reflexivity.
  - vm_compute. discriminate.
  - intros k Hk Hg. reflexivity.
  - reflexivity.
  - vm_compute. discriminate.
Defined.

(** X21. Whatever [generate] throws already has [type], [code] and
    [message], so the [tools/call] handler replies with exactly that
    error: the context [Tool: <name>] it passes to [formatACPError]
    never reaches the reply. *)
Theorem tools_call_error_reply :
  forall (env : Env) (models : list FalModel) (request : CallRequest)
         (h : Handler) (model : FalModel) (e : JsValue),
    find_model models (toolName request) = Some model ->
    fst (generate env (slug model)
           (match arguments request with Some ps => ps | None => [] end)
           {| requestId := meta_requestId request;
              idempotencyKey := meta_idempotencyKey request |}
           (client (load_schema env model h))) = Throw e ->
    isACPError e = true
    /\ fst (tools_call env models request h) = createToolErrorResponse e.
Proof.
  intros env models request h model e Hfind Hthrow.
  destruct (generate_throw _ _ _ _ _ _ Hthrow) as [Hacp _].
  split; [exact Hacp|].
  unfold tools_call. rewrite Hfind.
  destruct (generate _ _ _ _ _) as [[result|error] c]; cbn [fst] in Hthrow |- *;
    [discriminate|].
  injection Hthrow as ->.
  rewrite (formatACPError_passthrough _ _ _ Hacp). reflexivity.
Qed.

Lemma tools_call_error_reply_witness :
  fst (tools_call (failing_env unavailable) [flux_pro] call_flux_pro fresh_handler)
  = createToolErrorResponse
      (createACPError "service_unavailable" "service_error"
         (JStr "Service temporarily unavailable") JUndefined (Some "req-1")).
Proof.
  refine (proj2 (tools_call_error_reply (failing_env unavailable) [flux_pro]
                   call_flux_pro fresh_handler flux_pro _ _ _)).
  - reflexivity.
  - vm_compute. reflexivity.
Defined.

End GenerateMore.


(** ** More on schemas *)

Section SchemaMore.
Import Js Acp FalClient ServiceOps ClientNotions Scenario.

(** The schema cache after the loop of [cleanup] has visited the entries
    of [m], a part of the cache [full]. *)
Lemma sweep_fold (now ttl' : Z) (full m : gmap string (JsValue * Z)) :
  forall k,
    map_fold (sweep_step now ttl') full m !! k
    = match m !! k with
      | Some cached => if now - snd cached >? ttl' then None else full !! k
      | None => full !! k
      end.
Proof.
  apply (map_fold_weak_ind
           (fun r m =>
              forall k, r !! k
                        = match m !! k with
                          | Some cached =>
                              if now - snd cached >? ttl' then None else full !! k
                          | None => full !! k
                          end)).
  - intros k. rewrite lookup_empty. reflexivity.
  - intros i x m' acc Hnone IH k. unfold sweep_step.
    destruct (decide (k = i)) as [->|Hne].
    + rewrite lookup_insert_eq.
      destruct (now - snd x >? ttl'); [apply lookup_delete_eq|].
      rewrite IH, Hnone. reflexivity.
    + rewrite lookup_insert_ne by congruence.
      destruct (now - snd x >? ttl');
        [rewrite lookup_delete_ne by congruence|]; apply IH.
Qed.

Lemma cleanup_schemaCache (w : FalClientService) (k : string) :
  schemaCache (cleanup w) !! k
  = match schemaCache w !! k with
    | Some cached =>
        if clock w - snd cached >? SCHEMA_CACHE_TTL w then None else Some cached
    | None => None
    end.
Proof.
  unfold cleanup. cbn [schemaCache]. rewrite sweep_fold.
  destruct (schemaCache w !! k) as [cached|] eqn:Hk; [|reflexivity].
  destruct (_ >? _); reflexivity.
Qed.

(** X22. [cleanup] of the service removes from the schema cache exactly
    the entries older than the time-to-live, and changes neither the
    clock nor the trace. *)
Theorem cleanup_removes_old_schemas :
  forall (w : FalClientService) (modelSlug : string),
    schemaCache (cleanup w) !! modelSlug
    = match schemaCache w !! modelSlug with
      | Some (schema, timestamp) =>
          if clock w - timestamp >? SCHEMA_CACHE_TTL w then None
          else Some (schema, timestamp)
      | None => None
      end
    /\ clock (cleanup w) = clock w
    /\ events (cleanup w) = events w.
Proof.
  intros w modelSlug. rewrite cleanup_schemaCache.
  destruct (schemaCache w !! modelSlug) as [[schema timestamp]|];
    repeat split; reflexivity.
Qed.

(** X23. [cleanup] and [fetchSchema] disagree at the boundary only. A
    schema that [fetchSchema] would return from the cache is still
    returned from it, without a download, after [cleanup]; a schema
    whose age is exactly the time-to-live survives [cleanup] and is
    nevertheless downloaded again. *)
Theorem cleanup_keeps_served_schemas :
  forall (env : Env) (w : FalClientService) (modelSlug : string)
         (schema : JsValue) (timestamp : Z),
    schemaCache w !! modelSlug = Some (schema, timestamp) ->
    clock w - timestamp <= SCHEMA_CACHE_TTL w ->
    schemaCache (cleanup w) !! modelSlug = Some (schema, timestamp)
    /\ (clock w - timestamp < SCHEMA_CACHE_TTL w ->
        fetchSchema env modelSlug (cleanup w) = (schema, cleanup w))
    /\ (clock w - timestamp = SCHEMA_CACHE_TTL w ->
        events (snd (fetchSchema env modelSlug (cleanup w)))
        = (events w ++ [EvFetch modelSlug])%list).
Proof.
  intros env w modelSlug schema timestamp Hcached Hage.
  assert (schemaCache (cleanup w) !! modelSlug = Some (schema, timestamp)) as Hkept.
  { rewrite cleanup_schemaCache, Hcached. cbn [snd].
    destruct (Z.gtb_spec (clock w - timestamp) (SCHEMA_CACHE_TTL w)); [lia|].
    reflexivity. }
  split; [exact Hkept|]. split.
  - intros Hfresh. unfold fetchSchema. rewrite Hkept.
    change (clock (cleanup w)) with (clock w).
    change (SCHEMA_CACHE_TTL (cleanup w)) with (SCHEMA_CACHE_TTL w).
    destruct (Z.ltb_spec (clock w - timestamp) (SCHEMA_CACHE_TTL w)); [|lia].
    reflexivity.
  - intros Hboundary. unfold fetchSchema. rewrite Hkept.
    change (clock (cleanup w)) with (clock w).
    change (SCHEMA_CACHE_TTL (cleanup w)) with (SCHEMA_CACHE_TTL w).
    destruct (Z.ltb_spec (clock w - timestamp) (SCHEMA_CACHE_TTL w)); [lia|].
    destruct (fetchSchemaFromAPI env _ modelSlug); reflexivity.
Qed.

Lemma cleanup_keeps_served_schemas_witness :
  let w := advance 3600000
             (with_schemaCache {[ "fal-ai/flux-pro" := (JNull, 0) ]} default_service) in
  schemaCache (cleanup w) !! "fal-ai/flux-pro" = Some (JNull, 0)
  /\ events (snd (fetchSchema (failing_env unavailable) "fal-ai/flux-pro" (cleanup w)))
     = [EvFetch "fal-ai/flux-pro"].
Proof.
  intros w.
  destruct (cleanup_keeps_served_schemas (failing_env unavailable) w "fal-ai/flux-pro"
              JNull 0) as (Hkept & _ & Hboundary).
  - vm_compute. reflexivity.
  - vm_compute. discriminate.
  - split; [exact Hkept | apply Hboundary; reflexivity].
Defined.

(** [fetchSchema] when no fresh schema is cached. *)
Lemma fetchSchema_download (env : Env) (modelSlug : string) (w : FalClientService) :
  no_fresh_schema w modelSlug ->
  fetchSchema env modelSlug w
  = let w1 := log (EvFetch modelSlug) w in
    match fetchSchemaFromAPI env (count_fetches (events w)) modelSlug with
    | Normal schema =>
        (schema,
         with_schemaCache (<[modelSlug := (schema, clock w)]> (schemaCache w)) w1)
    | Throw _ => (getFallbackSchema modelSlug, w1)
    end.
Proof.
  intros Hstale. unfold fetchSchema.
  destruct (schemaCache w !! modelSlug) as [[schema timestamp]|] eqn:Hcached;
    [|reflexivity].
  specialize (Hstale schema timestamp Hcached).
  destruct (Z.ltb_spec (clock w - timestamp) (SCHEMA_CACHE_TTL w)); [lia|].
  reflexivity.
Qed.

(** X24. A downloaded schema is cached: when no fresh schema is cached
    and the download succeeds, [fetchSchema] returns the downloaded
    schema, and asked again less than the time-to-live later it returns
    the same schema without a second download. *)
Theorem fetchSchema_then_cached :
  forall (env : Env) (modelSlug : string) (w : FalClientService)
         (schema : JsValue) (dt : Z),
    no_fresh_schema w modelSlug ->
    fetchSchemaFromAPI env (count_fetches (events w)) modelSlug = Normal schema ->
    dt < SCHEMA_CACHE_TTL w ->
    let r1 := fetchSchema env modelSlug w in
    let r2 := fetchSchema env modelSlug (advance dt (snd r1)) in
    fst r1 = schema
    /\ r2 = (schema, advance dt (snd r1))
    /\ count_fetches (events (snd r2)) = S (count_fetches (events w)).
Proof.
  intros env modelSlug w schema dt Hstale Hok Hdt r1 r2.
  assert (r1 = (schema,
                with_schemaCache (<[modelSlug := (schema, clock w)]> (schemaCache w))
                  (log (EvFetch modelSlug) w))) as Hr1.
  { subst r1. rewrite (fetchSchema_download env modelSlug w Hstale). cbn zeta.
    rewrite Hok. reflexivity. }
  assert (r2 = (schema, advance dt (snd r1))) as Hr2.
  { subst r2. rewrite Hr1. unfold fetchSchema.
    cbn [snd advance with_schemaCache log schemaCache clock SCHEMA_CACHE_TTL].
    rewrite lookup_insert_eq.
    destruct (Z.ltb_spec (clock w + dt - clock w) (SCHEMA_CACHE_TTL w)); [|lia].
    reflexivity. }
  split; [rewrite Hr1; reflexivity|]. split; [exact Hr2|].
  rewrite Hr2, Hr1. cbn [snd advance with_schemaCache log events].
  rewrite count_fetches_app. cbn [count_fetches]. lia.
Qed.

Lemma fetchSchema_then_cached_witness :
  let r1 := fetchSchema (answering_env one_image (getFallbackSchema "x"))
              "fal-ai/flux-pro" default_service in
  count_fetches
    (events (snd (fetchSchema (answering_env one_image (getFallbackSchema "x"))
                    "fal-ai/flux-pro" (advance 3599999 (snd r1)))))
  = 1%nat.
Proof.
  refine (proj2 (proj2
            (fetchSchema_then_cached (answering_env one_image (getFallbackSchema "x"))
               "fal-ai/flux-pro" default_service (getFallbackSchema "x") 3599999
               _ _ _))).
  - intros schema timestamp H. vm_compute in H. discriminate H.
  - reflexivity.
  - vm_compute. reflexivity.
Defined.

(** X25. A failed download is not cached by the service, and a stale
    schema is not used in its place: when no fresh schema is cached and
    the download fails, [fetchSchema] returns the fallback schema and
    leaves the schema cache as it was, so that the next [fetchSchema]
    attempts the download again. *)
Theorem fetchSchema_failure_not_cached :
  forall (env : Env) (modelSlug : string) (w : FalClientService)
         (e : JsValue) (dt : Z),
    no_fresh_schema w modelSlug ->
    fetchSchemaFromAPI env (count_fetches (events w)) modelSlug = Throw e ->
    0 <= dt ->
    let r1 := fetchSchema env modelSlug w in
    let r2 := fetchSchema env modelSlug (advance dt (snd r1)) in
    fst r1 = getFallbackSchema modelSlug
    /\ schemaCache (snd r1) = schemaCache w
    /\ events (snd r1) = (events w ++ [EvFetch modelSlug])%list
    /\ events (snd r2) = (events w ++ [EvFetch modelSlug; EvFetch modelSlug])%list.
Proof.
  intros env modelSlug w e dt Hstale Hfail Hdt r1 r2.
  assert (r1 = (getFallbackSchema modelSlug, log (EvFetch modelSlug) w)) as Hr1.
  { subst r1. rewrite (fetchSchema_download env modelSlug w Hstale). cbn zeta.
    rewrite Hfail. reflexivity. }
  split; [rewrite Hr1; reflexivity|]. split; [rewrite Hr1; reflexivity|].
  split; [rewrite Hr1; reflexivity|].
  subst r2. rewrite Hr1. cbn [snd]. clear Hfail Hr1.
  rewrite fetchSchema_download.
  - cbn zeta.
    destruct (fetchSchemaFromAPI env _ modelSlug);
      cbn [snd with_schemaCache log advance events];
      rewrite <- app_assoc; reflexivity.
  - intros schema timestamp Hcached.
    cbn [advance log schemaCache clock SCHEMA_CACHE_TTL] in Hcached |- *.
    specialize (Hstale schema timestamp Hcached). lia.
Qed.

Lemma fetchSchema_failure_not_cached_witness :
  events (snd (fetchSchema (failing_env unavailable) "fal-ai/flux-pro"
                 (advance 0 (snd (fetchSchema (failing_env unavailable)
                                    "fal-ai/flux-pro" default_service)))))
  = [EvFetch "fal-ai/flux-pro"; EvFetch "fal-ai/flux-pro"].
Proof.
  refine (proj2 (proj2 (proj2
            (fetchSchema_failure_not_cached (failing_env unavailable)
               "fal-ai/flux-pro" default_service
               (JObj (ErrorInst "Error" "HTTP 404: Not Found") []) 0 _ _ _)))).
  - intros schema timestamp H. vm_compute in H. discriminate H.
  - reflexivity.
  - lia.
Defined.

(** X26. Every fallback schema is an object schema with a string
    [prompt]; it has [image_url], [audio_url] or [video_url] exactly
    when the slug contains the matching marker, and the three do not
    displace one another. *)
Theorem getFallbackSchema_properties :
  forall (modelSlug : string),
    let schema := getFallbackSchema modelSlug in
    let properties := js_get schema "properties" in
    js_get schema "type" = JStr "object"
    /\ js_get (js_get properties "prompt") "type" = JStr "string"
    /\ js_in "image_url" properties
       = includes "image-to-" modelSlug || includes "img2" modelSlug
    /\ js_in "audio_url" properties
       = includes "audio-to-" modelSlug || includes "speech" modelSlug
    /\ js_in "video_url" properties = includes "video-to-" modelSlug.
Proof.
  intros modelSlug. unfold getFallbackSchema.
  destruct (includes "image-to-" modelSlug || includes "img2" modelSlug);
    destruct (includes "audio-to-" modelSlug || includes "speech" modelSlug);
    destruct (includes "video-to-" modelSlug);
    repeat split; reflexivity.
Qed.

End SchemaMore.


(** ** Tool names and headers *)

Section ToolNamesMore.
Import Js Acp FalClient Generator ToolNames AcpHeaders Scenario.

Lemma underscore_not_separator (c d : ascii) :
  d = "/"%char \/ d = "-"%char \/ d = "."%char -> underscore c <> d.
Proof.
  unfold underscore. intros Hd.
  destruct (Ascii.eqb_spec c "/"%char) as [->|H1];
    [destruct Hd as [->| [->| ->]]; discriminate|].
  destruct (Ascii.eqb_spec c "-"%char) as [->|H2];
    [destruct Hd as [->| [->| ->]]; discriminate|].
  destruct (Ascii.eqb_spec c "."%char) as [->|H3];
    [destruct Hd as [->| [->| ->]]; discriminate|].
  cbn. destruct Hd as [->| [->| ->]]; assumption.
Qed.

Lemma includes_map_chars (d : ascii) (s : string) :
  d = "/"%char \/ d = "-"%char \/ d = "."%char ->
  includes (String.String d String.EmptyString) (map_chars underscore s) = false.
Proof.
  intros Hd. induction s as [|c s IH]; [reflexivity|].
  cbn [map_chars includes String.prefix].
  destruct (ascii_dec d (underscore c)) as [Heq|_].
  - exfalso. exact (underscore_not_separator c d Hd (eq_sym Heq)).
  - exact IH.
Qed.

(** X27. A tool name starts with [fal_] and contains none of the
    characters [/], [-] and [.], whatever the slug. *)
Theorem sanitizeSlugToToolName_shape :
  forall (s : string),
    String.prefix "fal_" (sanitizeSlugToToolName s) = true
    /\ Forall (fun sep => includes sep (sanitizeSlugToToolName s) = false) separators.
Proof.
  intros s. unfold sanitizeSlugToToolName. fold underscore.
  set (stripped := if String.prefix "fal-ai/" s then drop 7 s else s).
  split; [destruct (map_chars underscore stripped); reflexivity|].
  assert (forall d, d = "/"%char \/ d = "-"%char \/ d = "."%char ->
                    includes (String.String d String.EmptyString)
                      ("fal_" +:+ map_chars underscore stripped) = false) as H.
  { intros d Hd. pose proof (includes_map_chars d stripped Hd) as Hrest.
    destruct Hd as [->| [->| ->]]; cbn; cbn in Hrest; exact Hrest. }
  repeat constructor; apply H; auto.
Qed.

(** X28. The prefix [fal-ai/] is dropped, so a slug that lacks it gets
    the name of the slug that has it: the two cannot both be tools. *)
Theorem sanitizeSlugToToolName_prefix_collision :
  forall (s : string),
    String.prefix "fal-ai/" s = false ->
    sanitizeSlugToToolName ("fal-ai/" +:+ s) = sanitizeSlugToToolName s.
Proof.
  intros s Hs. unfold sanitizeSlugToToolName. rewrite Hs.
  replace (String.prefix "fal-ai/" ("fal-ai/" +:+ s)) with true
    by (destruct s; reflexivity).
  reflexivity.
Qed.

Lemma sanitizeSlugToToolName_prefix_collision_witness :
  sanitizeSlugToToolName "fal-ai/flux-pro" = sanitizeSlugToToolName "flux-pro".
Proof.
  apply (sanitizeSlugToToolName_prefix_collision "flux-pro"). reflexivity.
Defined.

(** X29. [tools/call] finds a model exactly for the names
    [getAllToolNames] lists; the model found has that name and is the
    first of the catalog that has it, so of two models with one name the
    later is never called. [findModelByToolName] finds the same. *)
Theorem find_model_listed :
  forall (models : list FalModel) (toolName' : string),
    (is_Some (find_model models toolName') <-> In toolName' (getAllToolNames models))
    /\ (forall model,
           find_model models toolName' = Some model ->
           sanitizeSlugToToolName (slug model) = toolName'
           /\ exists before after,
               models = (before ++ model :: after)%list
               /\ ~ In toolName' (getAllToolNames before))
    /\ findModelByToolName models toolName' = find_model models toolName'.
Proof.
  intros models toolName'. split; [|split; [|reflexivity]].
  - unfold find_model, getAllToolNames.
    induction models as [|m models IH]; cbn [List.find map In].
    + split; [intros [x Hx]; discriminate | contradiction].
    + destruct (String.eqb_spec (sanitizeSlugToToolName (slug m)) toolName')
        as [Heq|Hne].
      * split; [intros _; left; exact Heq | intros _; eexists; reflexivity].
      * rewrite IH. split; [intros H; right; exact H|].
        intros [Heq|H]; [contradiction | exact H].
  - unfold find_model, getAllToolNames.
    induction models as [|m models IH]; cbn [List.find]; intros model Hfind;
      [discriminate|].
    destruct (String.eqb_spec (sanitizeSlugToToolName (slug m)) toolName')
      as [Heq|Hne].
    + injection Hfind as <-. split; [exact Heq|].
      exists [], models. split; [reflexivity | intros []].
    + destruct (IH model Hfind) as (Hname & before & after & -> & Hnot).
      split; [exact Hname|].
      exists (m :: before), after. split; [reflexivity|].
      cbn [map In]. intros [Heq|Hin]; [contradiction | exact (Hnot Hin)].
Qed.

(** *** Headers *)

Lemma assoc_spread_absent (k : string) (more base' : Props) :
  k ∉ object_keys more ->
  assoc k (fold_left (fun acc kx => obj_set acc (fst kx) (snd kx)) more base')
  = assoc k base'.
Proof.
  revert base'. induction more as [|[k1 x1] more IH]; intros base' Hnot;
    [reflexivity|].
  cbn [fold_left fst snd]. cbn [object_keys map fst] in Hnot.
  apply not_elem_of_cons in Hnot as [Hne Hnot].
  rewrite IH by exact Hnot. rewrite assoc_obj_set.
  destruct (String.eqb_spec k k1); [contradiction | reflexivity].
Qed.

Lemma assoc_spread_present (k : string) (x : JsValue) (more base' : Props) :
  NoDup (object_keys more) ->
  (k, x) ∈ more ->
  assoc k (fold_left (fun acc kx => obj_set acc (fst kx) (snd kx)) more base')
  = Some x.
Proof.
  revert base'. induction more as [|[k1 x1] more IH]; intros base' Hnodup Hin;
    [inversion Hin|].
  cbn [object_keys map fst] in Hnodup. apply NoDup_cons in Hnodup as [Hfresh Hnodup].
  cbn [fold_left fst snd]. apply elem_of_cons in Hin as [Heq|Hin].
  - injection Heq as -> ->.
    rewrite assoc_spread_absent by exact Hfresh.
    rewrite assoc_obj_set, String.eqb_refl. reflexivity.
  - apply IH; assumption.
Qed.

(** X30. In [createACPHeaders] the options win: every header passed in
    [options] comes out as passed, [Authorization] and an empty
    [User-Agent] included; a header the options lack has the value the
    function gives it without options. *)
Theorem createACPHeaders_options_win :
  forall (apiKey : string) (options : Props),
    NoDup (object_keys options) ->
    let headers := JObj Plain (createACPHeaders apiKey options) in
    (forall k x, (k, x) ∈ options -> js_get headers k = x)
    /\ (forall k, k ∉ object_keys options ->
                  js_get headers k = js_get (JObj Plain (createACPHeaders apiKey [])) k)
    /\ createACPHeaders apiKey []
       = [("Authorization", JStr ("Bearer " +:+ apiKey));
          ("Content-Type", JStr "application/json");
          ("API-Version", JStr "2025-09-29");
          ("User-Agent", JStr "FalAI-MCP/1.0")].
Proof.
  intros apiKey options Hnodup headers. split; [|split; [|reflexivity]].
  - intros k x Hin. subst headers. unfold js_get, createACPHeaders.
    rewrite (assoc_spread_present k x options _ Hnodup Hin). reflexivity.
  - intros k Hnot. subst headers. unfold js_get at 1. unfold createACPHeaders at 1.
    rewrite (assoc_spread_absent k options _ Hnot).
    cbn [assoc js_get createACPHeaders fold_left hidden].
    destruct (String.eqb k "Authorization"); [reflexivity|].
    destruct (String.eqb k "Content-Type"); [reflexivity|].
    destruct (String.eqb k "API-Version"); [reflexivity|].
    destruct (String.eqb_spec k "User-Agent") as [->|_]; [|reflexivity].
    rewrite (assoc_None "User-Agent" options Hnot). reflexivity.
Qed.

Lemma createACPHeaders_options_win_witness :
  js_get (JObj Plain (createACPHeaders "secret"
                        [("Authorization", JStr "Basic abc"); ("User-Agent", JStr "")]))
         "User-Agent"
  = JStr "".
Proof.
  refine (proj1 (createACPHeaders_options_win "secret"
                   [("Authorization", JStr "Basic abc"); ("User-Agent", JStr "")] _)
                "User-Agent" (JStr "") _).
  - apply NoDup_cons. split; [|apply NoDup_singleton].
    intros H. apply elem_of_cons in H as [H|H]; [discriminate H | inversion H].
  - apply elem_of_cons. right. apply elem_of_cons. left. reflexivity.
Defined.

End ToolNamesMore.

